(** * Chat bots (SadhanaAI challenge bot, KautilyaAI legal assistant)

    A shallow embedding of the two Next.js chat applications:
    - the API route [src/app/api/chat/route.ts] (challenge bot) and its
      legal twin (the second route file), with the keyword classifier,
      the history assembly of the POST handler, the stream relay and
      the rate-limit / generic error branches;
    - the page component [src/app/page.tsx] with [sendMessage] and its
      stream read loop.

    JavaScript strings are embedded as [string]; each [ascii] stands for
    one code unit, so the model covers texts in the one-byte range.
    The two loops that carry the reply, the relay of the route and
    the read loop of the page, are embedded a second time on texts of
    16-bit code units, with [TextEncoder] and [TextDecoder] written
    out (modules [Utf8] and [Stream]). Numbers are exact naturals;
    the doubles of the source agree with them up to 2^53.
    Arrays are lists, indexed with stdpp's lookup. Thrown errors are
    values of [JsError] passed along explicitly; the effects of a
    handler (SDK calls, state updates, requests) are returned as
    lists. *)

From Stdlib Require Import String Ascii List NArith Lia DecimalString DecimalN.
From stdpp Require Import base list strings.

(** ** JavaScript string primitives used by the sources *)
Module Js.

(** The code units below 256 that have a lower-case form: A to Z, and
    the accented capitals from 192 to 222 without the sign at 215.
    The lower-case form is 32 further on. *)
Definition isUpper (c : ascii) : bool :=
  let n := N_of_ascii c in
  (((65 <=? n) && (n <=? 90)) ||
   ((192 <=? n) && (n <=? 222) && negb (n =? 215)))%N.

Definition lowerChar (c : ascii) : ascii :=
  if isUpper c then ascii_of_N (N_of_ascii c + 32) else c.

(** [String.prototype.toLowerCase] *)
Fixpoint toLowerCase (s : string) : string :=
  match s with
  | EmptyString => EmptyString
  | String c s' => String (lowerChar c) (toLowerCase s')
  end.

(** [String.prototype.startsWith] *)
Fixpoint startsWith (s k : string) {struct k} : bool :=
  match k with
  | EmptyString => true
  | String c k' =>
      match s with
      | EmptyString => false
      | String d s' => if Ascii.eqb c d then startsWith s' k' else false
      end
  end.

(** [String.prototype.includes]: some index of [s] starts an
    occurrence of [k]. *)
Fixpoint includes (s k : string) : bool :=
  startsWith s k ||
  match s with
  | EmptyString => false
  | String _ s' => includes s' k
  end.

(** White space in the sense of [String.prototype.trim], one-byte
    range: TAB, LF, VT, FF, CR, SPACE and NBSP. *)
Definition isWhiteSpace (c : ascii) : bool :=
  let n := N_of_ascii c in
  (((9 <=? n) && (n <=? 13)) || (n =? 32) || (n =? 160))%N.

Fixpoint trimStart (s : string) : string :=
  match s with
  | EmptyString => EmptyString
  | String c s' => if isWhiteSpace c then trimStart s' else s
  end.

(** Drops the trailing white space of [s]. *)
Fixpoint trimEnd (s : string) : string :=
  match s with
  | EmptyString => EmptyString
  | String c s' =>
      match trimEnd s' with
      | EmptyString => if isWhiteSpace c then EmptyString else String c EmptyString
      | t => String c t
      end
  end.

(** [String.prototype.trim] *)
Definition trim (s : string) : string := trimEnd (trimStart s).

(** Truthiness of a string value: only the empty string is falsy. *)
Definition truthy (s : string) : bool :=
  match s with EmptyString => false | String _ _ => true end.

(** [\d] of a regular expression without the unicode flag. *)
Definition isDigit (c : ascii) : bool :=
  let n := N_of_ascii c in ((48 <=? n) && (n <=? 57))%N.

Definition digitValue (c : ascii) : N := (N_of_ascii c - 48)%N.

(** The longest run of digits at the head of [s], and what follows. *)
Fixpoint spanDigits (s : string) : string * string :=
  match s with
  | EmptyString => (EmptyString, EmptyString)
  | String c s' =>
      if isDigit c
      then let '(ds, rest) := spanDigits s' in (String c ds, rest)
      else (EmptyString, s)
  end.

(** [parseInt(ds, 10)] on a string of decimal digits, as an exact
    number. The source computes in doubles: it gives this number as
    long as the number is at most 2^53 = 9007199254740992, and the
    nearest double beyond. *)
Definition parseInt (ds : string) : N :=
  fold_left (fun acc c => (acc * 10 + digitValue c)%N)
            (list_ascii_of_string ds) 0%N.

(** [Number.prototype.toString] on a natural number: its decimal
    digits. The source does so below 10^21, for the numbers that are
    doubles, and writes an exponent from 10^21 on. *)
Definition toString (n : N) : string :=
  match n with
  | N0 => "0"
  | _ => NilEmpty.string_of_uint (N.to_uint n)
  end.

(** [fragments.join("")]: the texts one after the other. *)
Definition join (fragments : list string) : string :=
  fold_right String.append "" fragments.

(** [k] occurs in [s] as a substring. *)
Definition occursIn (k s : string) : Prop :=
  exists a b, s = a +:+ k +:+ b.

(** [a] is a prefix of [b]. *)
Definition prefixOf (a b : string) : Prop :=
  exists rest, b = a +:+ rest.

(** Every code unit of [s] is white space. *)
Definition blank (s : string) : Prop :=
  Forall (fun c => isWhiteSpace c = true) (list_ascii_of_string s).

End Js.

(** ** The keyword classifiers *)

(** [challengeKeywords] of [isChallengeQuery], route.ts *)
Definition challengeKeywords : list string :=
  [ "challenge"; "task"; "goal"; "habit"; "routine"; "activity"; "productivity";
    "wellness"; "fitness"; "health"; "exercise"; "workout"; "diet"; "nutrition";
    "meditation"; "mindfulness"; "mental"; "learning"; "skill"; "hobby"; "project";
    "daily"; "weekly"; "monthly"; "morning"; "evening"; "work"; "personal";
    "creative"; "art"; "writing"; "reading"; "social"; "career"; "development";
    "growth"; "self-improvement"; "motivation"; "discipline"; "consistency";
    "focus"; "time management"; "stress"; "anxiety"; "sleep"; "habit tracking";
    "goals"; "targets"; "milestones"; "progress"; "achievement";

    "productivity hacks"; "lifehack"; "journaling"; "reflection"; "vision"; "planning";
    "goal setting"; "tracking"; "resilience"; "grit"; "inspiration"; "checklist";
    "self-care"; "affirmations"; "clarity"; "breathing"; "routine building";
    "energy boost"; "positivity"; "clean eating"; "hydration"; "step count";
    "walking"; "running"; "stretching"; "yoga"; "bodyweight"; "strength"; "calmness";
    "balance"; "mindset"; "consumption"; "detox"; "routine design"; "habit loop";
    "lifestyle"; "commitment"; "persistence"; "accountability"; "feedback";
    "goal review"; "win"; "micro-goals"; "streak"; "habit stacking"; "keystone habit"
  ].

(** [legalKeywords] of [isLegalQuestion], legal route *)
Definition legalKeywords : list string :=
  [ "law"; "legal"; "right"; "rights"; "court"; "judge"; "attorney"; "lawyer"; "lawsuit";
    "contract"; "agreement"; "breach"; "liability"; "tort"; "compensation"; "damages";
    "crime"; "criminal"; "offense"; "prosecution"; "defendant"; "plaintiff"; "sue"; "sued";
    "divorce"; "custody"; "property"; "estate"; "will"; "testament"; "inheritance";
    "tenant"; "landlord"; "lease"; "eviction"; "employment"; "discrimination";
    "patent"; "copyright"; "trademark"; "intellectual property"; "settlement";
    "regulation"; "statute"; "legislation"; "constitution"; "jurisdiction";
    "insurance"; "claim"; "dispute"; "arbitration"; "mediation"; "license";
    "debt"; "bankruptcy"; "tax"; "immigration"; "visa"; "citizenship"
  ].

(** A check that lower-casing leaves every keyword of a list as it
    is, so that [keyword.toLowerCase()] can be read as [keyword]. *)
Definition allLower (keywords : list string) : bool :=
  forallb (fun k => String.eqb (Js.toLowerCase k) k) keywords.

(** [keywords.some(keyword => lowerText.includes(keyword.toLowerCase()))] *)
Definition someKeyword (keywords : list string) (text : string) : bool :=
  let lowerText := Js.toLowerCase text in
  existsb (fun keyword => Js.includes lowerText (Js.toLowerCase keyword)) keywords.

Definition isChallengeQuery (text : string) : bool :=
  someKeyword challengeKeywords text.

Definition isLegalQuestion (text : string) : bool :=
  someKeyword legalKeywords text.

(** ** Values shared by the server and the client *)

(** A thrown JavaScript error, as far as the handlers look at it:
    [error.status] (a number, when present) and [error.message]. *)
Module JsError.
Record t := { status : option N; message : option string }.
End JsError.
Abbreviation JsError := JsError.t.

(** [new Error(msg)] *)
Definition Error (msg : string) : JsError :=
  {| JsError.status := None; JsError.message := Some msg |}.

(** A [TypeError] raised by the engine (reading a property of
    [undefined]); its message text is the engine's. *)
Definition TypeError : JsError :=
  Error "Cannot read properties of undefined".

(** [a || b] on strings that may be [undefined]. *)
Definition orElse (a : option string) (b : string) : string :=
  match a with
  | Some s => if Js.truthy s then s else b
  | None => b
  end.

(** The wire format of a chat message: [interface ChatMessage] of the
    route files. *)
Module ChatMessage.
Record t := { id : string; role : string; content : string }.
End ChatMessage.
Abbreviation ChatMessage := ChatMessage.t.

(** The JSON object of an error response; an absent field is [None].
    The 429 body carries all three fields, the 500 body [error] only. *)
Module ErrorData.
Record t :=
  { error : option string; message : option string; retryAfter : option N }.
End ErrorData.
Abbreviation ErrorData := ErrorData.t.

(** A [ReadableStream] of byte chunks after it has run: what was
    enqueued, and whether the controller was closed or errored. *)
Inductive StreamEnd :=
| Closed
| Errored (e : JsError).

Record ByteStream := { queue : list (list Byte.byte); ending : StreamEnd }.

(** The body given to [new Response]: [JSON.stringify] of an error
    object, or the stream. *)
Inductive Body :=
| JsonBody (data : ErrorData)
| StreamBody (s : ByteStream).

(** [new Response(body, { status, headers })]; the status is 200 when
    the init object has none. *)
Module Response.
Record t := { status : N; headers : list (string * string); body : Body }.
End Response.
Abbreviation Response := Response.t.

(** [Array.prototype.findIndex]; [None] stands for [-1]. *)
Definition findIndex {A} (P : A -> Prop) `{!forall x, Decision (P x)}
    (l : list A) : option nat :=
  fst <$> list_find P l.

(** [i + 1] for an index that may be [-1]. *)
Definition indexSucc (i : option nat) : nat :=
  match i with
  | Some n => S n
  | None => 0
  end.

(** ** The Gemini SDK, as the route uses it *)
Module Gemini.

Record Part := { text : string }.

(** An entry of the [history] given to [startChat]. *)
Record Content := { role : string; parts : list Part }.

(** What [chat.sendMessageStream(msg)] does: it rejects, or it gives
    a stream whose chunks have the listed [text()] values and which
    then completes or throws. *)
Inductive Upstream :=
| Rejects (e : JsError)
| Streams (fragments : list string) (failure : option JsError).

(** The calls the handler makes on the SDK. *)
Inductive Call :=
| StartChat (history : list Content)
| SendMessageStream (msg : string).

End Gemini.

(** ** The API route: [POST] *)
Module Route.
Import Gemini.

(** What differs between the two route files. *)
Record Bot :=
  { acknowledge : string;       (* text of the synthetic user turn *)
    systemPromptText : string;
    classifier : string -> bool }.

Definition challengeBot : Bot :=
  {| acknowledge := "You are SadhanaAI, a daily challenge bot. Please acknowledge your role.";
     systemPromptText := "You are SadhanaAI, a daily challenge bot. You provide personalized challenges and tasks to help users improve productivity, wellness, learning, or skill development. Format your responses with clear, actionable challenges presented as context cards. For non-challenge questions, respond with: 'I'm a challenge bot focused on providing personalized daily tasks and challenges. I cannot answer questions outside this domain.'";
     classifier := isChallengeQuery |}.

Definition legalBot : Bot :=
  {| acknowledge := "You are KautilyaAI, an AI legal assistant. Please acknowledge your role.";
     systemPromptText := "You are KautilyaAI, an AI legal assistant. Provide general legal information only, not specific advice. Always recommend consulting a qualified attorney for specific matters. For non-legal questions, respond with: 'I'm KautilyaAI, a legal advisor focused exclusively on providing general legal information. I cannot answer questions outside the legal domain.'";
     classifier := isLegalQuestion |}.

Definition entry (r : string) (t : string) : Content :=
  {| role := r; parts := [ {| text := t |} ] |}.

(** [[...messages].reverse().findIndex(msg => msg.role === "user")] *)
Definition lastUserMessageIndex (messages : list ChatMessage) : option nat :=
  findIndex (fun msg => msg.(ChatMessage.role) = "user") (reverse messages).

(** The two [chatHistory.push] calls that open the history. *)
Definition priming (bot : Bot) : list Content :=
  [ entry "user" bot.(acknowledge); entry "model" bot.(systemPromptText) ].

(** [messages.filter(msg => msg.role === "user" && msg.id !== lastUserMessage.id)] *)
Definition userMessages (messages : list ChatMessage) (lastUserMessage : ChatMessage)
  : list ChatMessage :=
  filter (fun msg => msg.(ChatMessage.role) = "user" /\
                     msg.(ChatMessage.id) <> lastUserMessage.(ChatMessage.id))
         messages.

(** One iteration of [for (const userMsg of userMessages)]. *)
Definition pushTurn (messages : list ChatMessage) (chatHistory : list Content)
    (userMsg : ChatMessage) : list Content :=
  let userIndex :=
    findIndex (fun m => m.(ChatMessage.id) = userMsg.(ChatMessage.id)) messages in
  let chatHistory := chatHistory ++ [ entry "user" userMsg.(ChatMessage.content) ] in
  match messages !! indexSucc userIndex with
  | Some next =>
      if decide (next.(ChatMessage.role) = "assistant")
      then chatHistory ++ [ entry "model" next.(ChatMessage.content) ]
      else chatHistory
  | None => chatHistory
  end.

(** The history handed to [startChat]. *)
Definition chatHistory (bot : Bot) (messages : list ChatMessage)
    (lastUserMessage : ChatMessage) : list Content :=
  if decide (1 < length messages)
  then fold_left (pushTurn messages) (userMessages messages lastUserMessage) (priming bot)
  else priming bot.

(** The retry-delay pattern of the catch branch, up to the digits. *)
Definition quote : ascii := "034"%char.

Definition retryDelayPrefix : string :=
  "retryDelay" +:+ String quote (String ":" (String quote EmptyString)).

(** The rest of [s] after the prefix [k], when [s] starts with [k]. *)
Fixpoint dropPrefix (k s : string) : option string :=
  match k with
  | EmptyString => Some s
  | String c k' =>
      match s with
      | EmptyString => None
      | String d s' => if Ascii.eqb c d then dropPrefix k' s' else None
      end
  end.

(** The pattern matched at the head of [s]; the result is group 1.
    The greedy digit run must be followed by [s]: giving digits back
    leaves a digit in front, never the letter. *)
Definition matchHere (s : string) : option string :=
  match dropPrefix retryDelayPrefix s with
  | Some rest =>
      let '(ds, after) := Js.spanDigits rest in
      if Js.truthy ds && Js.startsWith after "s" then Some ds else None
  | None => None
  end.

(** [msg.match(/retryDelay":"(\d+)s/)], group 1 of the leftmost match. *)
Fixpoint retryDelayMatch (s : string) : option string :=
  match matchHere s with
  | Some ds => Some ds
  | None =>
      match s with
      | EmptyString => None
      | String _ s' => retryDelayMatch s'
      end
  end.

(** [error.status === 429 || (error.message && error.message.includes("429"))] *)
Definition isRateLimit (error : JsError) : bool :=
  bool_decide (error.(JsError.status) = Some 429%N) ||
  match error.(JsError.message) with
  | Some m => Js.truthy m && Js.includes m "429"
  | None => false
  end.

(** The value of [retrySeconds] after the inner [try]. Without a
    message, [error.message.match] throws and the default stays. *)
Definition retrySeconds (error : JsError) : N :=
  match error.(JsError.message) with
  | Some m =>
      match retryDelayMatch m with
      | Some ds => if Js.truthy ds then Js.parseInt ds else 60%N
      | None => 60%N
      end
  | None => 60%N
  end.

(** The outer [catch (error)]. *)
Definition onError (error : JsError) : Response :=
  if isRateLimit error then
    let retrySeconds := retrySeconds error in
    {| Response.status := 429;
       Response.headers := [ ("Content-Type", "application/json");
                             ("Retry-After", Js.toString retrySeconds) ];
       Response.body := JsonBody
         {| ErrorData.error := Some "Rate limit exceeded";
            ErrorData.message :=
              Some ("Google AI API rate limit reached. Please try again in "
                    +:+ Js.toString retrySeconds
                    +:+ " seconds. The free tier of Gemini API has strict rate limits.");
            ErrorData.retryAfter := Some retrySeconds |} |}
  else
    {| Response.status := 500;
       Response.headers := [ ("Content-Type", "application/json") ];
       Response.body := JsonBody
         {| ErrorData.error :=
              Some (orElse error.(JsError.message) "Failed to process chat request");
            ErrorData.message := None;
            ErrorData.retryAfter := None |} |}.

Section Relay.
(** [new TextEncoder().encode] *)
Variable encode : string -> list Byte.byte.

(** The body of [for await (const chunk of result.stream)]. *)
Definition forward (queue : list (list Byte.byte)) (text : string)
  : list (list Byte.byte) :=
  if Js.truthy text then queue ++ [ encode text ] else queue.

(** [start(controller)] of the [ReadableStream]. *)
Definition relay (fragments : list string) (failure : option JsError) : ByteStream :=
  {| queue := fold_left forward fragments [];
     ending := match failure with
               | None => Closed
               | Some error => Errored error
               end |}.

(** The handler's result, with the SDK calls it made. *)
Record Handled := { response : Response; calls : list Call }.

(** [export async function POST(req)], for a request whose JSON body
    is [{ messages }]. The verdict of the classifier is computed and
    goes to the console only; console output is not part of the
    model. *)
Definition POST (bot : Bot) (sendMessageStream : list Content -> string -> Upstream)
    (messages : list ChatMessage) : Handled :=
  match lastUserMessageIndex messages with
  | None =>
      {| response := onError (Error "No user message found"); calls := [] |}
  | Some i =>
      match messages !! (length messages - 1 - i) with
      | None => {| response := onError TypeError; calls := [] |}
      | Some lastUserMessage =>
          let isChallenge := bot.(classifier) lastUserMessage.(ChatMessage.content) in
          let chatHistory := chatHistory bot messages lastUserMessage in
          let calls := [ StartChat chatHistory;
                         SendMessageStream lastUserMessage.(ChatMessage.content) ] in
          match sendMessageStream chatHistory lastUserMessage.(ChatMessage.content) with
          | Rejects error => {| response := onError error; calls := calls |}
          | Streams fragments failure =>
              {| response :=
                   {| Response.status := 200;
                      Response.headers := [ ("Content-Type", "text/plain; charset=utf-8") ];
                      Response.body := StreamBody (relay fragments failure) |};
                 calls := calls |}
          end
      end
  end.
End Relay.

End Route.


(** ** The page component: [sendMessage] *)
Module Page.

Inductive Role := user | assistant.

(** [interface Message] of the page. *)
Record Message := { id : string; role : Role; content : string }.

(** The component's [useState] cells. *)
Record State :=
  { messages : list Message;
    input : string;
    isLoading : bool;
    error : option string;
    retryTimer : option N }.

(** The first message of the challenge page and of the legal page. *)
Definition challengeGreeting : string :=
  "Hello, I'm SadhanaAI, your daily challenge bot. How can I help you today? I can suggest personalized daily challenges for productivity, wellness, learning, or skill development. Just let me know what type of challenges you're interested in!".

Definition legalGreeting : string :=
  "Hello, I'm KautilyaAI, your AI legal assistant. How can I help you today? Please note that I provide general information only, not professional legal advice. Feel free to ask questions about laws, legal concepts, rights, or procedures.".

(** The initial values of the [useState] calls. *)
Definition initial (greeting : string) : State :=
  {| messages := [ {| id := "1"; role := assistant; content := greeting |} ];
     input := "";
     isLoading := false;
     error := None;
     retryTimer := None |}.

Definition setMessages (f : list Message -> list Message) (st : State) : State :=
  {| messages := f st.(messages); input := st.(input); isLoading := st.(isLoading);
     error := st.(error); retryTimer := st.(retryTimer) |}.

Definition setInput (v : string) (st : State) : State :=
  {| messages := st.(messages); input := v; isLoading := st.(isLoading);
     error := st.(error); retryTimer := st.(retryTimer) |}.

Definition setIsLoading (v : bool) (st : State) : State :=
  {| messages := st.(messages); input := st.(input); isLoading := v;
     error := st.(error); retryTimer := st.(retryTimer) |}.

Definition setError (v : option string) (st : State) : State :=
  {| messages := st.(messages); input := st.(input); isLoading := st.(isLoading);
     error := v; retryTimer := st.(retryTimer) |}.

Definition setRetryTimer (v : option N) (st : State) : State :=
  {| messages := st.(messages); input := st.(input); isLoading := st.(isLoading);
     error := st.(error); retryTimer := v |}.

(** How a message is written into the request body by
    [JSON.stringify]. *)
Definition roleName (r : Role) : string :=
  match r with
  | user => "user"
  | assistant => "assistant"
  end.

Definition toWire (m : Message) : ChatMessage :=
  {| ChatMessage.id := m.(id);
     ChatMessage.role := roleName m.(role);
     ChatMessage.content := m.(content) |}.

(** Truthiness of a number that may be [null] or [undefined]. *)
Definition truthyNumber (n : option N) : bool :=
  match n with
  | Some n => negb (n =? 0)%N
  | None => false
  end.

(** What the page sees of the [Response] that [fetch] resolves to:
    [response.status], [response.headers], the chunks that
    [response.body.getReader()] reads and how that stream ends, and
    the outcome of [response.json()]. *)
Module Fetched.
Record t :=
  { status : N;
    headers : list (string * string);
    body : option ByteStream;
    json : JsError + ErrorData }.
End Fetched.
Abbreviation Fetched := Fetched.t.

(** [response.ok] *)
Definition ok (response : Fetched) : bool :=
  ((200 <=? response.(Fetched.status)) && (response.(Fetched.status) <=? 299))%N.

(** [headers.get(name)]; header names compare without case. *)
Definition get (headers : list (string * string)) (name : string) : option string :=
  snd <$> List.find (fun h => String.eqb (Js.toLowerCase (fst h)) (Js.toLowerCase name))
                    headers.

Section SendMessage.
Context {Decoder : Type}.
(** [new TextDecoder()] and [decoder.decode(value, { stream: true })] *)
Variable newDecoder : Decoder.
Variable decode : Decoder -> list Byte.byte -> Decoder * string.
(** [fetch("/api/chat", ...)] on the [messages] of the request body;
    [inl] when the promise rejects. *)
Variable fetch : list ChatMessage -> JsError + Fetched.

(** [msg.id === assistantMessage.id ? { ...msg, content: responseText } : msg] *)
Definition withContent (assistantId : string) (responseText : string) (msg : Message)
  : Message :=
  if decide (msg.(id) = assistantId)
  then {| id := msg.(id); role := msg.(role); content := responseText |}
  else msg.

(** The [while (true)] loop over [reader.read()], until [done]: the
    states after each [setMessages], oldest first, when every updater
    runs at its call. An updater that React runs later reads the
    variable [responseText] as it is then, so a state in between may
    show a later text of the loop ([Stream.contents]); the state
    after the loop is the same. *)
Fixpoint readLoop (assistantId : string) (chunks : list (list Byte.byte))
    (decoder : Decoder) (responseText : string) (st : State) : list State :=
  match chunks with
  | [] => []
  | value :: chunks =>
      let '(decoder, chunk) := decode decoder value in
      let responseText := responseText +:+ chunk in
      let st := setMessages (fmap (withContent assistantId responseText)) st in
      st :: readLoop assistantId chunks decoder responseText st
  end.

(** The [try] block after the request went out, started in state
    [st]: the states it sets, oldest first, and the error it throws,
    if any. *)
Definition receive (st : State) (assistantId : string) (fetched : JsError + Fetched)
  : list State * option JsError :=
  match fetched with
  | inl err => ([], Some err)
  | inr response =>
      if negb (ok response) then
        match response.(Fetched.json) with
        | inl err => ([], Some err)
        | inr errorData =>
            if (response.(Fetched.status) =? 429)%N
               && truthyNumber errorData.(ErrorData.retryAfter)
            then
              (* parseInt(errorData.retryAfter, 10) is the number itself
                 up to 2^53, where its text is its decimal digits *)
              let seconds := default 0%N errorData.(ErrorData.retryAfter) in
              let st1 := setRetryTimer (Some seconds) st in
              let st2 :=
                setError
                  (Some (orElse errorData.(ErrorData.message)
                           ("Rate limit exceeded. Please wait " +:+ Js.toString seconds
                            +:+ " seconds before trying again."))) st1 in
              ([st1; st2],
               Some (Error (orElse errorData.(ErrorData.message) "Rate limit exceeded")))
            else
              ([], Some (Error (orElse errorData.(ErrorData.error) "Failed to get response")))
        end
      else
        let contentType := orElse (get response.(Fetched.headers) "Content-Type") "" in
        if Js.includes contentType "text/plain" then
          let assistantMessage :=
            {| id := assistantId; role := assistant; content := "" |} in
          let st1 := setMessages (fun prev => prev ++ [assistantMessage]) st in
          match response.(Fetched.body) with
          | Some stream =>
              (st1 :: readLoop assistantId stream.(queue) newDecoder "" st1,
               match stream.(ending) with
               | Closed => None
               | Errored err => Some err
               end)
          | None => ([st1], None)
          end
        else ([], Some (Error "Unexpected response format from server"))
  end.

(** One call of [sendMessage]: every state it sets, oldest first, and
    the request bodies it sends. *)
Record Run := { renders : list State; requests : list (list ChatMessage) }.

(** [sendMessage(messageContent)] called in state [st]; [userId] and
    [assistantId] are the results of the two [uuidv4()] calls. *)
Definition sendMessage (st : State) (userId assistantId : string)
    (messageContent : string) : Run :=
  if negb (Js.truthy (Js.trim messageContent)) || st.(isLoading) then
    {| renders := []; requests := [] |}
  else
    let userMessage := {| id := userId; role := user; content := messageContent |} in
    let st1 := setMessages (fun prev => prev ++ [userMessage]) st in
    let st2 := setInput "" st1 in
    let st3 := setIsLoading true st2 in
    let st4 := setError None st3 in
    let request := toWire <$> st.(messages) ++ [userMessage] in
    let '(received, thrown) := receive st4 assistantId (fetch request) in
    let st5 := List.last received st4 in
    let caught :=
      match thrown with
      | Some err =>
          if negb (truthyNumber st.(retryTimer))
          then [ setError (Some (orElse err.(JsError.message)
                                   "Failed to communicate with the AI")) st5 ]
          else []
      | None => []
      end in
    let st6 := List.last caught st5 in
    {| renders := [st1; st2; st3; st4] ++ received ++ caught ++ [ setIsLoading false st6 ];
       requests := [ request ] |}.

(** The successive values of [responseText] in the read loop. *)
Fixpoint responseTexts (chunks : list (list Byte.byte)) (decoder : Decoder)
    (responseText : string) : list string :=
  match chunks with
  | [] => []
  | value :: chunks =>
      let '(decoder, chunk) := decode decoder value in
      let responseText := responseText +:+ chunk in
      responseText :: responseTexts chunks decoder responseText
  end.

(** The state of the page once the call has settled. *)
Definition settled (st : State) (run : Run) : State :=
  List.last run.(renders) st.

(** The [content] of the message a state shows last. *)
Definition shown (st : State) : option string :=
  content <$> last st.(messages).

End SendMessage.

(** Each text of the list is a prefix of the next one, so the lengths
    never go down. *)
Definition growing (texts : list string) : Prop :=
  forall i c1 c2, texts !! i = Some c1 -> texts !! S i = Some c2 ->
    Js.prefixOf c1 c2 /\ String.length c1 <= String.length c2.

(** A page that shows the greeting and waits for input. *)
Definition idle : State := initial challengeGreeting.

(** A page with a request in flight and a text typed meanwhile. *)
Definition busy : State :=
  {| messages := [ {| id := "1"; role := assistant; content := challengeGreeting |};
                   {| id := "u"; role := user; content := "Suggest a task" |} ];
     input := "And another one";
     isLoading := true;
     error := None;
     retryTimer := None |}.

End Page.

(** ** The network between the route and the page *)

Definition sameEnding (a b : StreamEnd) : Prop :=
  match a, b with
  | Closed, Closed => True
  | Errored _, Errored _ => True
  | _, _ => False
  end.

(** The page's view [f] of the route's response [r]: the status as
    sent; every header that was sent, possibly among others; a JSON
    body as parsed back by [response.json()]; a streamed body with
    the same kind of end and the bytes in their order, cut into
    chunks at any places: all of them when the stream was closed, and
    those read before the failure when it was errored
    ([controller.error] drops what is still queued). *)
Definition delivers (r : Response) (f : Page.Fetched) : Prop :=
  f.(Page.Fetched.status) = r.(Response.status) /\
  (forall name value,
     Page.get r.(Response.headers) name = Some value ->
     Page.get f.(Page.Fetched.headers) name = Some value) /\
  match r.(Response.body) with
  | JsonBody data => f.(Page.Fetched.json) = inr data
  | StreamBody s =>
      exists s', f.(Page.Fetched.body) = Some s' /\
                 sameEnding s.(ending) s'.(ending) /\
                 match s.(ending) with
                 | Closed => concat s'.(queue) = concat s.(queue)
                 | Errored _ => concat s'.(queue) `prefix_of` concat s.(queue)
                 end
  end.


(** ** Vocabulary of the specification *)
Module Spec.
Import Gemini Route.

(** The active query: the most recent user-role message, [q], and its
    position [p] in the transcript. *)
Definition activeQuery (messages : list ChatMessage) (p : nat) (q : ChatMessage) : Prop :=
  messages !! p = Some q /\
  q.(ChatMessage.role) = "user" /\
  forall j m, p < j -> messages !! j = Some m -> m.(ChatMessage.role) <> "user".

(** The history entry [e] is derived from the transcript message at
    position [k]: a user entry from a user message, a model entry from
    an assistant message, with that message's content. *)
Definition derivedFrom (messages : list ChatMessage) (k : nat) (e : Content) : Prop :=
  exists m, messages !! k = Some m /\
    ((m.(ChatMessage.role) = "user" /\ e = entry "user" m.(ChatMessage.content)) \/
     (m.(ChatMessage.role) = "assistant" /\ e = entry "model" m.(ChatMessage.content))).

Definition isUserAt (messages : list ChatMessage) (j : nat) : bool :=
  match messages !! j with
  | Some m => bool_decide (m.(ChatMessage.role) = "user")
  | None => false
  end.

Definition isAssistantAt (messages : list ChatMessage) (j : nat) : bool :=
  match messages !! j with
  | Some m => bool_decide (m.(ChatMessage.role) = "assistant")
  | None => false
  end.

(** The positions a turn at [j] draws on: [j], and the next position
    when an assistant message stands there. *)
Definition turnSources (messages : list ChatMessage) (j : nat) : list nat :=
  j :: (if isAssistantAt messages (S j) then [S j] else []).

(** The positions of the transcript the history draws on, in order,
    when the active query stands at [p]: the turns of all other user
    messages. *)
Definition sources (messages : list ChatMessage) (p : nat) : list nat :=
  flat_map (turnSources messages)
    (filter (fun j => j <> p /\ isUserAt messages j = true) (seq 0 (length messages))).

Definition allDigits (ds : string) : Prop :=
  Forall (fun c => Js.isDigit c = true) (list_ascii_of_string ds).

(** The pattern [/retryDelay":"(\d+)s/] matches at position [n] of [s]
    with [ds] as its group 1. *)
Definition matchesAt (s : string) (n : nat) (ds : string) : Prop :=
  exists a b, String.length a = n /\ ds <> "" /\ allDigits ds /\
              s = a +:+ retryDelayPrefix +:+ ds +:+ "s" +:+ b.

(** [s.slice(n)]: [s] without its first [n] code units. *)
Fixpoint slice (n : nat) (s : string) : string :=
  match n, s with
  | 0, _ => s
  | S n, String _ s' => slice n s'
  | S _, EmptyString => EmptyString
  end.

(** A check that the pattern matches at none of the first [n]
    positions of [s]. *)
Definition noMatchBefore (n : nat) (s : string) : bool :=
  forallb (fun k => match matchHere (slice k s) with
                    | Some _ => false
                    | None => true
                    end) (seq 0 n).

End Spec.

(** ** Sample inputs *)
Module Sample.
Import Gemini.

Definition message (i r c : string) : ChatMessage :=
  {| ChatMessage.id := i; ChatMessage.role := r; ChatMessage.content := c |}.

(** The payload [{messages:[{id:"1",role:"assistant",content:"hi"}]}]. *)
Definition greetingOnly : list ChatMessage :=
  [ message "1" "assistant" "hi" ].

(** A finished exchange: the only user message already has its reply. *)
Definition answered : list ChatMessage :=
  [ message "1" "user" "a"; message "2" "assistant" "b" ].

(** A user message that carries the id of the greeting before it. *)
Definition sharedId : list ChatMessage :=
  [ message "x" "assistant" "g"; message "x" "user" "q";
    message "y" "assistant" "r"; message "z" "user" "new" ].

(** A greeting, one answered question and the new question. *)
Definition conversation : list ChatMessage :=
  [ message "1" "assistant" "hi"; message "u1" "user" "first";
    message "a1" "assistant" "reply"; message "u2" "user" "second" ].

(** An encoder for the examples: a code unit per byte. *)
Definition bytesOf (s : string) : list Byte.byte := list_byte_of_string s.

(** A decoder for the examples, without state. *)
Definition textOf (d : unit) (bs : list Byte.byte) : unit * string :=
  (d, string_of_list_byte bs).

(** A network that hands the body over one byte at a time. *)
Definition byteWise (r : Response) : Page.Fetched :=
  {| Page.Fetched.status := r.(Response.status);
     Page.Fetched.headers := r.(Response.headers);
     Page.Fetched.body :=
       match r.(Response.body) with
       | StreamBody s =>
           Some {| queue := (fun b => [b]) <$> concat s.(queue); ending := s.(ending) |}
       | JsonBody _ => None
       end;
     Page.Fetched.json :=
       match r.(Response.body) with
       | JsonBody data => inr data
       | StreamBody _ => inl (Error "Unexpected token")
       end |}.

(** An upstream that answers with the given fragments. *)
Definition answering (fragments : list string)
  : list Content -> string -> Upstream :=
  fun _ _ => Streams fragments None.

(** An error whose message is [retryDelay":"17s] and nothing else. *)
Definition bareRetryDelay : JsError :=
  Error (Route.retryDelayPrefix +:+ "17s").

(** A rate-limit error as the SDK words it, with a retry delay. *)
Definition quotaExceeded : JsError :=
  Error ("[429 Too Many Requests] Resource has been exhausted. {"
         +:+ Route.retryDelayPrefix +:+ "17s}").

(** An error with two retry delays in its message. *)
Definition twoDelays : JsError :=
  Error ("429 " +:+ Route.retryDelayPrefix +:+ "5s "
         +:+ Route.retryDelayPrefix +:+ "17s").

(** An error with status 429 and a message without retry delay. *)
Definition plain429 : JsError :=
  {| JsError.status := Some 429%N; JsError.message := Some "Too Many Requests" |}.

(** An upstream that rejects with the given error. *)
Definition rejecting (e : JsError) : list Content -> string -> Upstream :=
  fun _ _ => Rejects e.

End Sample.

(** ** The rest of the page component *)
Module View.
Import Page.

(** [NON_CHALLENGE_RESPONSE] of the challenge page and
    [NON_LEGAL_RESPONSE] of the legal page. *)
Definition NON_CHALLENGE_RESPONSE : string :=
  "I'm a challenge bot focused on providing personalized daily tasks and challenges. I cannot answer questions outside this domain.".

Definition NON_LEGAL_RESPONSE : string :=
  "I'm a legal advisor focused exclusively on providing general legal information. I cannot answer questions outside the legal domain.".

(** [content.includes(NON_CHALLENGE_RESPONSE)] *)
Definition isNonChallengeResponse (content : string) : bool :=
  Js.includes content NON_CHALLENGE_RESPONSE.

Definition isNonLegalResponse (content : string) : bool :=
  Js.includes content NON_LEGAL_RESPONSE.

Definition challengeExamples : list string :=
  [ "Give me a productivity challenge for today";
    "Suggest a 7-day fitness challenge";
    "I need a mental wellness challenge";
    "What's a good learning challenge for beginners?" ].

Definition legalExamples : list string :=
  [ "What are my rights as a tenant?";
    "How does copyright protection work?";
    "What's the difference between a felony and misdemeanor?";
    "How do I respond to a small claims lawsuit?" ].

(** [handleExampleClick(example)] and [handleInputChange(e)]; the
    focus of the input field is not part of the state. *)
Definition handleExampleClick (example : string) (st : State) : State :=
  setInput example st.

Definition handleInputChange (value : string) (st : State) : State :=
  setInput value st.

(** [disabled={isLoading || !!retryTimer}] of the input field. *)
Definition inputDisabled (st : State) : bool :=
  st.(isLoading) || truthyNumber st.(retryTimer).

(** [disabled={isLoading || !input.trim() || !!retryTimer}] of the
    submit button. *)
Definition submitDisabled (st : State) : bool :=
  st.(isLoading) || negb (Js.truthy (Js.trim st.(input))) || truthyNumber st.(retryTimer).

(** [isLoading && messages[messages.length - 1]?.role !== "assistant"]:
    the [Thinking...] row is shown. *)
Definition thinking (st : State) : bool :=
  st.(isLoading) &&
  match last st.(messages) with
  | Some {| role := assistant |} => false
  | _ => true
  end.

(** The updater that the interval of the second [useEffect] runs:
    [prev && prev > 1 ? prev - 1 : (setError(null), null)]. The
    subtraction is exact for the doubles up to 2^53; beyond, the
    source rounds [prev - 1]. *)
Definition tick (st : State) : State :=
  match st.(retryTimer) with
  | Some prev =>
      if truthyNumber (Some prev) && (1 <? prev)%N
      then setRetryTimer (Some (prev - 1)%N) st
      else setRetryTimer None (setError None st)
  | None => setRetryTimer None (setError None st)
  end.

(** [retryTimer && retryTimer > 0]: the effect sets up the interval. *)
Definition intervalSet (st : State) : bool :=
  match st.(retryTimer) with
  | Some n => truthyNumber (Some n) && (0 <? n)%N
  | None => false
  end.

(** One second of the countdown. The effect depends on [retryTimer],
    so each change of it clears the interval and sets a new one; the
    updater runs once per second as long as the condition holds. *)
Definition second (st : State) : State :=
  if intervalSet st then tick st else st.

(** [k] seconds of the countdown. *)
Definition elapse (k : nat) (st : State) : State :=
  Nat.iter k second st.

Section Handlers.
Context {Decoder : Type}.
Variable newDecoder : Decoder.
Variable decode : Decoder -> list Byte.byte -> Decoder * string.
Variable fetch : list ChatMessage -> JsError + Fetched.

(** [handleSubmit(e)]: [sendMessage(input)]. *)
Definition handleSubmit (st : State) (userId assistantId : string) : Run :=
  sendMessage newDecoder decode fetch st userId assistantId st.(input).

(** [handleKeyPress(e)] for a key event with the given [key] and
    [shiftKey]. *)
Definition handleKeyPress (key : string) (shiftKey : bool) (st : State)
    (userId assistantId : string) : Run :=
  if String.eqb key "Enter" && negb shiftKey
  then sendMessage newDecoder decode fetch st userId assistantId st.(input)
  else {| renders := []; requests := [] |}.

End Handlers.

End View.

(** ** More vocabulary *)
Module Conversation.
Import Gemini Route.

(** A user message and the assistant message that answers it. *)
Definition Exchange : Type := ChatMessage * ChatMessage.

Definition turnMessages (x : Exchange) : list ChatMessage := [ x.1; x.2 ].

Definition turnEntries (x : Exchange) : list Content :=
  [ entry "user" x.1.(ChatMessage.content); entry "model" x.2.(ChatMessage.content) ].

Definition isExchange (x : Exchange) : Prop :=
  x.1.(ChatMessage.role) = "user" /\ x.2.(ChatMessage.role) = "assistant".

(** The transcript of a page after [exchanges]: the greeting, the
    answered questions with their replies, and the new question. *)
Definition transcript (greeting : ChatMessage) (exchanges : list Exchange)
    (question : ChatMessage) : list ChatMessage :=
  greeting :: flat_map turnMessages exchanges ++ [ question ].

(** In the history [h] every model entry stands right after a user
    entry. *)
Definition modelFollowsUser (h : list Content) : Prop :=
  forall i e, h !! i = Some e -> e.(role) = "model" ->
    exists j e', i = S j /\ h !! j = Some e' /\ e'.(role) = "user".

(** Every entry of [h] has one of the two roles of the SDK and one
    text part. *)
Definition wellShaped (h : list Content) : Prop :=
  Forall (fun e => (e.(role) = "user" \/ e.(role) = "model") /\
                   exists t, e.(parts) = [ {| text := t |} ]) h.

End Conversation.

Module Frame.
Import Page.

(** The state [s] differs from [st] in the transcript at most. *)
Definition sameCells (st s : State) : Prop :=
  s.(input) = st.(input) /\ s.(isLoading) = st.(isLoading) /\
  s.(error) = st.(error) /\ s.(retryTimer) = st.(retryTimer).

(** The transcript [ms] is [old] with the user message behind it,
    and behind that at most the assistant message with id
    [assistantId]. *)
Definition extends (old : list Message) (userMessage : Message) (assistantId : string)
    (ms : list Message) : Prop :=
  ms = old ++ [ userMessage ] \/
  exists c, ms = old ++ [ userMessage;
                          {| id := assistantId; role := assistant; content := c |} ].

(** A question of the page and the reply shown for it. *)
Definition isAnswered (x : Message * Message) : Prop :=
  x.1.(role) = user /\ x.2.(role) = assistant.

(** The transcript of a page that has shown [greeting] and then the
    answered questions [answered]. *)
Definition shownTranscript (greeting : Message) (answered : list (Message * Message))
  : list Message :=
  greeting :: flat_map (fun x => [ x.1; x.2 ]) answered.

(** The history entries of an answered question. *)
Definition answeredEntries (x : Message * Message) : list Gemini.Content :=
  [ Route.entry "user" x.1.(content); Route.entry "model" x.2.(content) ].

End Frame.

(** More sample inputs. *)
Module Sample2.

(** A rate-limit error that asks for no delay. *)
Definition zeroDelay : JsError :=
  Error ("429 " +:+ Route.retryDelayPrefix +:+ "0s").

(** An error that is not a rate limit. *)
Definition keyInvalid : JsError :=
  {| JsError.status := Some 400%N; JsError.message := Some "API key not valid" |}.

(** A network failure in the middle of the body. *)
Definition reset : JsError := Error "network error".

(** A page whose countdown shows three seconds. *)
Definition waiting : Page.State :=
  {| Page.messages := Page.idle.(Page.messages);
     Page.input := "";
     Page.isLoading := false;
     Page.error := Some "Rate limit exceeded";
     Page.retryTimer := Some 3%N |}.

(** A page with a question typed and nothing in flight. *)
Definition typed : Page.State :=
  Page.setInput "Suggest a task" Page.idle.

(** The greeting of the challenge page and one answered question. *)
Definition hello : Page.Message :=
  {| Page.id := "1"; Page.role := Page.assistant; Page.content := Page.challengeGreeting |}.

Definition asked : Page.Message :=
  {| Page.id := "u1"; Page.role := Page.user; Page.content := "Suggest a task" |}.

Definition told : Page.Message :=
  {| Page.id := "a1"; Page.role := Page.assistant; Page.content := "Walk a mile" |}.

(** A page after that exchange. *)
Definition chatted : Page.State :=
  Page.setMessages (fun _ => [ hello; asked; told ]) Page.idle.

(** An upstream that fails after the given fragments. *)
Definition failing (fragments : list string) (e : JsError)
  : list Gemini.Content -> string -> Gemini.Upstream :=
  fun _ _ => Gemini.Streams fragments (Some e).

(** The page's [fetch] in front of a route, over the byte-wise
    network. *)
Definition wired (bot : Route.Bot)
    (api : list Gemini.Content -> string -> Gemini.Upstream)
  : list ChatMessage -> JsError + Page.Fetched :=
  fun request => inr (Sample.byteWise (Route.POST Sample.bytesOf bot api request).(Route.response)).

(** The texts a refusal passes through while it streams. *)
Definition refusing : list string :=
  [ ""; "I'm a challenge bot ";
    View.NON_CHALLENGE_RESPONSE;
    View.NON_CHALLENGE_RESPONSE +:+ " Try a task." ].

End Sample2.

(** ** The handler from the request on *)
Module Request.
Import Gemini Route.

(** [POST(req)]: [await req.json()] is the first statement of the
    [try], so when it rejects, with [inl error], the [catch] answers
    as for any other error and no SDK call is made; with [inr
    messages] the handler goes on with the messages of the body. *)
Definition POST (encode : string -> list Byte.byte) (bot : Bot)
    (sendMessageStream : list Content -> string -> Upstream)
    (body : JsError + list ChatMessage) : Handled :=
  match body with
  | inl error => {| response := onError error; calls := [] |}
  | inr messages => Route.POST encode bot sendMessageStream messages
  end.

End Request.

(** ** The platform's UTF-8 codec

    [TextEncoder.encode] and [TextDecoder.decode] with [stream: true]
    as the Encoding Standard has them, on texts of 16-bit code units
    ([list N], every unit below 65536) and bytes ([Byte.byte]; the
    decoder's arithmetic is on their values). *)
Module Utf8.

(** Leading (high) and trailing (low) surrogates. *)
Definition isHigh (u : N) : bool := (0xD800 <=? u)%N && (u <=? 0xDBFF)%N.
Definition isLow (u : N) : bool := (0xDC00 <=? u)%N && (u <=? 0xDFFF)%N.


(** The scalar values of a text, as the encoder reads them: a
    surrogate pair is one value, a surrogate that stands alone is
    replaced by U+FFFD. *)
Fixpoint scalars (t : list N) : list N :=
  match t with
  | [] => []
  | u :: t' =>
      if isHigh u then
        match t' with
        | l :: t'' =>
            if isLow l
            then (0x10000 + N.shiftl (u - 0xD800) 10 + (l - 0xDC00))%N :: scalars t''
            else 0xFFFD%N :: scalars t'
        | [] => [ 0xFFFD%N ]
        end
      else if isLow u then 0xFFFD%N :: scalars t'
      else u :: scalars t'
  end.


(** [0x80 | (t & 0x3F)] *)
Definition continuation (t : N) : N := N.lor 0x80 (N.land t 0x3F).

(** The UTF-8 encoder on one scalar value: the values of its bytes. *)
Definition encodeScalar (c : N) : list N :=
  if (c <=? 0x7F)%N then [ c ]
  else if (c <=? 0x7FF)%N then
    [ (N.shiftr c 6 + 0xC0)%N; continuation c ]
  else if (c <=? 0xFFFF)%N then
    [ (N.shiftr c 12 + 0xE0)%N; continuation (N.shiftr c 6); continuation c ]
  else
    [ (N.shiftr c 18 + 0xF0)%N; continuation (N.shiftr c 12);
      continuation (N.shiftr c 6); continuation c ].

(** The byte of a value below 256. *)
Definition byteOf (n : N) : Byte.byte := default Byte.x00 (Byte.of_N n).

(** [encoder.encode(text)] *)
Definition encode (t : list N) : list Byte.byte :=
  byteOf <$> flat_map encodeScalar (scalars t).

(** The state of the UTF-8 decoder between two bytes. *)
Record Machine := {
  codePoint : N;
  bytesSeen : N;
  bytesNeeded : N;
  lowerBoundary : N;
  upperBoundary : N
}.

Definition idle : Machine :=
  {| codePoint := 0; bytesSeen := 0; bytesNeeded := 0;
     lowerBoundary := 0x80; upperBoundary := 0xBF |}.

(** A byte met when no bytes are needed: the new state and the code
    points given out (U+FFFD for a byte that starts nothing). *)
Definition lead (b : N) : Machine * list N :=
  if (b <=? 0x7F)%N then (idle, [ b ])
  else if (0xC2 <=? b)%N && (b <=? 0xDF)%N then
    ({| codePoint := N.land b 0x1F; bytesSeen := 0; bytesNeeded := 1;
        lowerBoundary := 0x80; upperBoundary := 0xBF |}, [])
  else if (0xE0 <=? b)%N && (b <=? 0xEF)%N then
    ({| codePoint := N.land b 0xF; bytesSeen := 0; bytesNeeded := 2;
        lowerBoundary := if (b =? 0xE0)%N then 0xA0 else 0x80;
        upperBoundary := if (b =? 0xED)%N then 0x9F else 0xBF |}, [])
  else if (0xF0 <=? b)%N && (b <=? 0xF4)%N then
    ({| codePoint := N.land b 0x7; bytesSeen := 0; bytesNeeded := 3;
        lowerBoundary := if (b =? 0xF0)%N then 0x90 else 0x80;
        upperBoundary := if (b =? 0xF4)%N then 0x8F else 0xBF |}, [])
  else (idle, [ 0xFFFD%N ]).

(** The decoder's handler on one byte. A byte outside the boundaries
    ends the sequence with U+FFFD and is read again as a first
    byte. *)
Definition step (m : Machine) (b : N) : Machine * list N :=
  if (m.(bytesNeeded) =? 0)%N then lead b
  else if negb ((m.(lowerBoundary) <=? b)%N && (b <=? m.(upperBoundary))%N) then
    let '(m', out) := lead b in (m', 0xFFFD%N :: out)
  else
    let codePoint := N.lor (N.shiftl m.(codePoint) 6) (N.land b 0x3F) in
    let bytesSeen := (m.(bytesSeen) + 1)%N in
    if (bytesSeen =? m.(bytesNeeded))%N then (idle, [ codePoint ])
    else ({| codePoint := codePoint; bytesSeen := bytesSeen;
             bytesNeeded := m.(bytesNeeded);
             lowerBoundary := 0x80; upperBoundary := 0xBF |}, []).

Fixpoint run (m : Machine) (bytes : list N) : Machine * list N :=
  match bytes with
  | [] => (m, [])
  | b :: bytes =>
      let '(m, out) := step m b in
      let '(m, rest) := run m bytes in
      (m, out ++ rest)
  end.

(** The code units of a code point. *)
Definition units (c : N) : list N :=
  if (c <? 0x10000)%N then [ c ]
  else [ (0xD800 + N.shiftr (c - 0x10000) 10)%N;
         (0xDC00 + N.land (c - 0x10000) 0x3FF)%N ].

(** The code points as a string. With [ignoreBOM] false, as it is by
    default, the first code point of the stream is left out when it
    is U+FEFF, the byte order mark. *)
Fixpoint serialize (bomSeen : bool) (codePoints : list N) : bool * list N :=
  match codePoints with
  | [] => (bomSeen, [])
  | c :: codePoints =>
      if negb bomSeen && (c =? 0xFEFF)%N then serialize true codePoints
      else let '(seen, rest) := serialize true codePoints in (seen, units c ++ rest)
  end.

Record Decoder := { machine : Machine; bomSeen : bool }.

(** [new TextDecoder()] *)
Definition fresh : Decoder := {| machine := idle; bomSeen := false |}.

(** [decoder.decode(value, { stream: true })]: bytes of a sequence
    that is not complete stay in the decoder for the next call. *)
Definition decode (d : Decoder) (value : list Byte.byte) : Decoder * list N :=
  let '(m, codePoints) := run d.(machine) (Byte.to_N <$> value) in
  let '(seen, text) := serialize d.(bomSeen) codePoints in
  ({| machine := m; bomSeen := seen |}, text).

End Utf8.

(** ** The reply on its way, on texts of 16-bit code units *)
Module Stream.
Import Utf8.

(** A string is truthy when it is not empty. *)
Definition truthy (text : list N) : bool :=
  match text with
  | [] => false
  | _ => true
  end.

(** [if (text) controller.enqueue(encoder.encode(text))] *)
Definition forward (queue : list (list Byte.byte)) (text : list N)
  : list (list Byte.byte) :=
  if truthy text then queue ++ [ encode text ] else queue.

(** The [for await] loop of [start(controller)] over the fragments of
    the upstream: the chunks in the queue of the stream. *)
Definition relay (fragments : list (list N)) : list (list Byte.byte) :=
  fold_left forward fragments [].

(** The read loop of [sendMessage]: the values of [responseText]
    after each [responseText += chunk]. *)
Fixpoint responseTexts (chunks : list (list Byte.byte)) (decoder : Decoder)
    (responseText : list N) : list (list N) :=
  match chunks with
  | [] => []
  | value :: chunks =>
      let '(decoder, chunk) := decode decoder value in
      let responseText := responseText ++ chunk in
      responseText :: responseTexts chunks decoder responseText
  end.

(** The contents of the assistant message, from the empty one it is
    added with. Each round of the loop calls [setMessages] with an
    updater that writes [responseText]; React runs an updater at the
    call or when it renders next, and the updater reads the variable
    as it is then. [moments] gives for each updater, in the order of
    the calls, the round after which it ran. *)
Definition contents (texts : list (list N)) (moments : list nat) : list (list N) :=
  [] :: omap (fun k => texts !! k) moments.

(** The moments of [n] updaters: none runs before its call or after
    the last round, and they run in the order of their calls. *)
Definition schedule (n : nat) (moments : list nat) : Prop :=
  length moments = n /\
  (forall i k, moments !! i = Some k -> i <= k < n) /\
  (forall i k k', moments !! i = Some k -> moments !! S i = Some k' -> k <= k').

End Stream.

(** * Properties *)

(** ** Strings *)
Module JsFacts.
Import Js.

#[local] Arguments String.append !_ _ / : simpl nomatch.

Lemma append_nil_r (s : string) : s +:+ "" = s.
Proof. induction s as [|c s IH]; simpl; congruence. Qed.

Lemma append_nil_l (s : string) : "" +:+ s = s.
Proof. reflexivity. Qed.

Lemma append_assoc (a b c : string) : (a +:+ b) +:+ c = a +:+ (b +:+ c).
Proof. induction a as [|x a IH]; simpl; congruence. Qed.

Lemma startsWith_spec (s k : string) :
  startsWith s k = true <-> exists b, s = k +:+ b.
Proof.
  revert s. induction k as [|c k IH]; intros s; simpl.
  - split; eauto.
  - destruct s as [|d s].
    + split; [discriminate | intros [b Hb]; discriminate].
    + destruct (Ascii.eqb_spec c d) as [->|Hne].
      * rewrite IH. split; intros [b Hb]; exists b; simpl in *; congruence.
      * split; [discriminate | intros [b Hb]; simpl in Hb; congruence].
Qed.

(** [includes] finds exactly the substrings. *)
Lemma includes_spec (s k : string) : includes s k = true <-> occursIn k s.
Proof.
  unfold occursIn. induction s as [|d s IH].
  - simpl. rewrite orb_false_r, startsWith_spec. split.
    + intros [b Hb]. exists "", b. exact Hb.
    + intros [[|x a] [b Hb]]; [eauto | discriminate].
  - cbn [includes]. rewrite orb_true_iff, startsWith_spec, IH. split.
    + intros [[b Hb] | (a & b & Hab)].
      * exists "", b. exact Hb.
      * exists (String d a), b. simpl. congruence.
    + intros ([|x a] & b & Hab).
      * left. exists b. exact Hab.
      * right. exists a, b. simpl in Hab. congruence.
Qed.

Lemma occursIn_refl (k : string) : occursIn k k.
Proof. exists "", "". simpl. now rewrite append_nil_r. Qed.

Lemma someKeyword_spec (keywords : list string) (text : string) :
  allLower keywords = true ->
  someKeyword keywords text = true <->
  exists k, In k keywords /\ occursIn k (toLowerCase text).
Proof.
  unfold allLower, someKeyword. rewrite forallb_forall, existsb_exists.
  intros Hlow. split; intros (k & Hin & Hk); exists k; split; trivial.
  - apply includes_spec. pose proof (Hlow k Hin) as E.
    apply String.eqb_eq in E. now rewrite <- E.
  - apply includes_spec in Hk. pose proof (Hlow k Hin) as E.
    apply String.eqb_eq in E. now rewrite E.
Qed.

End JsFacts.

(** ** The classifiers *)

(** C1. For every text, each classifier answers [true] exactly when
    the lower-cased text has an entry of that bot's keyword list as a
    substring; the answer is a function of the text alone. *)
Theorem classifier_keyword_substring (text : string) :
  (isChallengeQuery text = true <->
   exists k, In k challengeKeywords /\ Js.occursIn k (Js.toLowerCase text)) /\
  (isLegalQuestion text = true <->
   exists k, In k legalKeywords /\ Js.occursIn k (Js.toLowerCase text)).
Proof.
  split; apply JsFacts.someKeyword_spec; vm_compute; reflexivity.
Qed.

(** The scenario of the legal bot: the tenant question is in domain. *)
Example tenant_question_is_legal :
  isLegalQuestion "What are my rights as a tenant?" = true.
Proof. vm_compute. reflexivity. Qed.

(** No word boundaries: a keyword inside a longer word counts. *)
Example lawsuitology_is_legal : isLegalQuestion "Lawsuitology" = true.
Proof. vm_compute. reflexivity. Qed.

Example identity_question_is_not_a_challenge : isChallengeQuery "Who are you?" = false.
Proof. vm_compute. reflexivity. Qed.

(** ** The history assembled by [POST] *)
Module RouteFacts.
Import Gemini Route Spec.

Lemma lastUserMessageIndex_None (messages : list ChatMessage) :
  lastUserMessageIndex messages = None <->
  Forall (fun m => m.(ChatMessage.role) <> "user") messages.
Proof.
  unfold lastUserMessageIndex, findIndex.
  rewrite fmap_None, list_find_None, Forall_reverse. reflexivity.
Qed.

(** Scanning the reversed transcript finds the active query. *)
Lemma lastUserMessageIndex_Some (messages : list ChatMessage) (i : nat) :
  lastUserMessageIndex messages = Some i ->
  exists q, activeQuery messages (length messages - 1 - i) q.
Proof.
  unfold lastUserMessageIndex, findIndex. intros H.
  apply fmap_Some in H as ([i' q] & Hfind & ->). simpl.
  apply list_find_Some in Hfind as (Hq & Huser & Hleast).
  apply reverse_lookup_Some in Hq as [Hq Hlt].
  exists q. split; [|split]; trivial.
  - replace (length messages - 1 - i') with (length messages - S i') by lia. exact Hq.
  - intros j m Hj Hm.
    assert (j < length messages) by (eapply lookup_lt_Some; eauto).
    apply (Hleast (length messages - S j) m); [|lia].
    apply reverse_lookup_Some. split; [|lia].
    replace (length messages - S (length messages - S j)) with j by lia. exact Hm.
Qed.

Lemma activeQuery_unique (messages : list ChatMessage) p q p' q' :
  activeQuery messages p q -> activeQuery messages p' q' -> p = p' /\ q = q'.
Proof.
  intros (Hq & Hu & Hlast) (Hq' & Hu' & Hlast').
  assert (p = p') as ->.
  { destruct (Nat.lt_trichotomy p p') as [Hlt | [-> | Hlt]]; trivial.
    - destruct (Hlast p' q' Hlt Hq' Hu').
    - destruct (Hlast' p q Hlt Hq Hu). }
  split; congruence.
Qed.

Lemma activeQuery_exists (messages : list ChatMessage) :
  Exists (fun m => m.(ChatMessage.role) = "user") messages ->
  exists p q, activeQuery messages p q.
Proof.
  intros Hex. destruct (lastUserMessageIndex messages) as [i|] eqn:E.
  - apply lastUserMessageIndex_Some in E as [q Hq]. eauto.
  - apply lastUserMessageIndex_None in E.
    apply Exists_exists in Hex as (m & Hin & Hm).
    rewrite Forall_forall in E. destruct (E m); trivial.
Qed.

(** [POST] once the active query is known. *)
Lemma POST_active encode bot api (messages : list ChatMessage) p q :
  activeQuery messages p q ->
  POST encode bot api messages =
    let history := chatHistory bot messages q in
    let calls := [ StartChat history; SendMessageStream q.(ChatMessage.content) ] in
    match api history q.(ChatMessage.content) with
    | Rejects error => {| response := onError error; calls := calls |}
    | Streams fragments failure =>
        {| response :=
             {| Response.status := 200;
                Response.headers := [ ("Content-Type", "text/plain; charset=utf-8") ];
                Response.body := StreamBody (relay encode fragments failure) |};
           calls := calls |}
    end.
Proof.
  intros Hact. unfold POST.
  destruct (lastUserMessageIndex messages) as [i|] eqn:E.
  - apply lastUserMessageIndex_Some in E as [q' Hq'].
    destruct (activeQuery_unique _ _ _ _ _ Hact Hq') as [Hp <-].
    destruct Hq' as (Hlook & _). rewrite Hlook. reflexivity.
  - apply lastUserMessageIndex_None in E. destruct Hact as (Hq & Hu & _).
    rewrite Forall_lookup in E. destruct (E p q Hq Hu).
Qed.

(** What [POST] hands to the SDK. *)
Lemma POST_calls encode bot api (messages : list ChatMessage) p q :
  activeQuery messages p q ->
  (POST encode bot api messages).(calls) =
    [ StartChat (chatHistory bot messages q);
      SendMessageStream q.(ChatMessage.content) ].
Proof.
  intros Hact. rewrite (POST_active _ _ _ _ _ _ Hact). cbv zeta.
  destruct (api _ _); reflexivity.
Qed.

(** An iteration appends to the history it is given. *)
Lemma pushTurn_app (messages : list ChatMessage) (h : list Content) (u : ChatMessage) :
  pushTurn messages h u = h ++ pushTurn messages [] u.
Proof.
  unfold pushTurn.
  destruct (messages !! indexSucc _) as [next|]; [destruct (decide _)|];
    simpl; rewrite <- ?app_assoc; reflexivity.
Qed.

Lemma fold_pushTurn (messages us : list ChatMessage) (h : list Content) :
  fold_left (pushTurn messages) us h = h ++ flat_map (pushTurn messages []) us.
Proof.
  revert h. induction us as [|u us IH]; intros h; simpl.
  - now rewrite app_nil_r.
  - rewrite IH, (pushTurn_app messages h u), <- app_assoc. reflexivity.
Qed.

(** The history is the priming followed by the turns of the other
    user messages. *)
Lemma chatHistory_turns bot (messages : list ChatMessage) (q : ChatMessage) :
  In q messages ->
  chatHistory bot messages q =
    priming bot ++ flat_map (pushTurn messages []) (userMessages messages q).
Proof.
  intros Hin. unfold chatHistory. destruct (decide (1 < length messages)) as [Hlen|Hlen].
  - apply fold_pushTurn.
  - assert (userMessages messages q = []) as ->; [|now rewrite app_nil_r].
    destruct messages as [|m [|m' ms]]; simpl in *; try lia; try tauto.
    destruct Hin as [->|[]]. unfold userMessages.
    rewrite filter_cons_False; [reflexivity | tauto].
Qed.

Lemma findIndex_first (messages : list ChatMessage) (i : nat) (u : ChatMessage) :
  messages !! i = Some u ->
  (forall j m, j < i -> messages !! j = Some m -> m.(ChatMessage.id) <> u.(ChatMessage.id)) ->
  findIndex (fun m => m.(ChatMessage.id) = u.(ChatMessage.id)) messages = Some i.
Proof.
  intros Hu Hfirst. unfold findIndex.
  assert (list_find (fun m => m.(ChatMessage.id) = u.(ChatMessage.id)) messages
          = Some (i, u)) as ->; [|reflexivity].
  apply list_find_Some. split; [|split]; eauto.
Qed.

Lemma findIndex_unique (messages : list ChatMessage) (i : nat) (u : ChatMessage) :
  NoDup (ChatMessage.id <$> messages) ->
  messages !! i = Some u ->
  findIndex (fun m => m.(ChatMessage.id) = u.(ChatMessage.id)) messages = Some i.
Proof.
  intros Hnd Hu. apply findIndex_first; trivial.
  intros j m Hj Hm Heq.
  assert (j = i); [|lia].
  apply (NoDup_lookup _ _ _ (u.(ChatMessage.id)) Hnd).
  - rewrite list_lookup_fmap, Hm. simpl. congruence.
  - rewrite list_lookup_fmap, Hu. reflexivity.
Qed.

(** The entries of one turn, once the index of its user message is known. *)
Lemma pushTurn_at (messages : list ChatMessage) (i : nat) (u : ChatMessage) :
  findIndex (fun m => m.(ChatMessage.id) = u.(ChatMessage.id)) messages = Some i ->
  pushTurn messages [] u =
    entry "user" u.(ChatMessage.content) ::
    match messages !! S i with
    | Some next =>
        if decide (next.(ChatMessage.role) = "assistant")
        then [ entry "model" next.(ChatMessage.content) ]
        else []
    | None => []
    end.
Proof.
  intros Hi. unfold pushTurn. rewrite Hi. simpl.
  destruct (messages !! S i) as [next|]; [destruct (decide _)|]; reflexivity.
Qed.

(** Every entry of a turn comes from some message of the transcript. *)
Lemma pushTurn_derived (messages : list ChatMessage) (u : ChatMessage) :
  u ∈ messages -> u.(ChatMessage.role) = "user" ->
  Forall (fun e => exists k, derivedFrom messages k e) (pushTurn messages [] u).
Proof.
  intros Hin Huser. unfold pushTurn. simpl.
  apply list_elem_of_lookup in Hin as [k Hk].
  assert (exists k, derivedFrom messages k (entry "user" u.(ChatMessage.content))) as Hfirst.
  { exists k, u. split; [exact Hk | left; split; trivial]. }
  destruct (messages !! indexSucc _) as [next|] eqn:Hnext;
    [destruct (decide _) as [Hrole|Hrole]|]; repeat constructor; trivial.
  eexists _, next. split; [exact Hnext | right; split; trivial].
Qed.

Lemma onError_status (error : JsError) :
  (onError error).(Response.status) = 429%N \/ (onError error).(Response.status) = 500%N.
Proof. unfold onError. destruct (isRateLimit error); simpl; auto. Qed.

End RouteFacts.

Module HistoryFacts.
Import Gemini Route Spec RouteFacts.

(** With unique ids, the turns of the user messages other than the
    active query are drawn from the positions [sources] lists. *)
Lemma turns_sources (messages : list ChatMessage) p q :
  NoDup (ChatMessage.id <$> messages) ->
  activeQuery messages p q ->
  forall pre suf, messages = pre ++ suf ->
    Forall2 (derivedFrom messages)
      (flat_map (turnSources messages)
         (filter (fun j => j <> p /\ isUserAt messages j = true)
                 (seq (length pre) (length suf))))
      (flat_map (pushTurn messages [])
         (filter (fun msg => msg.(ChatMessage.role) = "user" /\
                             msg.(ChatMessage.id) <> q.(ChatMessage.id)) suf)).
Proof.
  intros Hnd (Hq & Hquser & _) pre suf. revert pre.
  induction suf as [|x suf IH]; intros pre Hsplit.
  - constructor.
  - assert (messages !! length pre = Some x) as Hx.
    { rewrite Hsplit. apply list_lookup_middle. reflexivity. }
    specialize (IH (pre ++ [x])).
    rewrite length_app, Nat.add_1_r in IH. rewrite <- app_assoc in IH.
    specialize (IH Hsplit).
    cbn [length seq]. rewrite !filter_cons.
    assert (isUserAt messages (length pre) = true <-> x.(ChatMessage.role) = "user") as Hrole.
    { unfold isUserAt. rewrite Hx. apply bool_decide_eq_true. }
    assert (length pre <> p <-> x.(ChatMessage.id) <> q.(ChatMessage.id)) as Hpos.
    { split; intros Hne Heq; apply Hne.
      - apply (NoDup_lookup _ _ _ (q.(ChatMessage.id)) Hnd).
        + rewrite list_lookup_fmap, Hx. simpl. congruence.
        + rewrite list_lookup_fmap, Hq. reflexivity.
      - subst p. congruence. }
    destruct (decide (length pre <> p /\ isUserAt messages (length pre) = true)) as [Hyes|Hno];
      destruct (decide (x.(ChatMessage.role) = "user" /\
                        x.(ChatMessage.id) <> q.(ChatMessage.id))) as [Hyes'|Hno'];
      try tauto.
    cbn [flat_map]. apply Forall2_app; [|exact IH].
    rewrite (pushTurn_at messages (length pre) x) by (apply findIndex_unique; trivial).
    unfold turnSources, isAssistantAt.
    constructor.
    + exists x. split; [exact Hx | left; tauto].
    + destruct (messages !! S (length pre)) as [next|] eqn:Hnext; [|constructor].
      destruct (decide (next.(ChatMessage.role) = "assistant")) as [Hr|Hr].
      * rewrite bool_decide_eq_true_2 by trivial. repeat constructor.
        exists next. split; [exact Hnext | right; tauto].
      * rewrite bool_decide_eq_false_2 by trivial. constructor.
Qed.

(** The active query is not among the positions the history draws on. *)
Lemma active_not_source (messages : list ChatMessage) p q :
  activeQuery messages p q -> p ∉ sources messages p.
Proof.
  intros (Hq & Hu & _) Hin. unfold sources in Hin.
  apply list_elem_of_In, in_flat_map in Hin as (j & Hj & Hp).
  apply list_elem_of_In, list_elem_of_filter in Hj as [[Hne _] _].
  unfold turnSources in Hp. destruct Hp as [->|Hp]; [congruence|].
  unfold isAssistantAt in Hp.
  destruct (messages !! S j) as [a|] eqn:Ha; [|destruct Hp].
  destruct (bool_decide_reflect (a.(ChatMessage.role) = "assistant")) as [Hr|Hr];
    [|destruct Hp].
  destruct Hp as [<-|[]]. congruence.
Qed.

End HistoryFacts.

Section HistoryClaims.
Import Gemini Route Spec RouteFacts HistoryFacts.

Variable encode : string -> list Byte.byte.
Variable bot : Bot.
Variable api : list Content -> string -> Upstream.

(** C3, as amended. In a transcript where the user message at position
    [i] is followed at once by an assistant message, where that user
    message has another id than the active query and no earlier
    message carries its id, the history handed to the SDK holds the
    user entry of the one directly followed by the model entry of the
    other. *)
Theorem answered_turn_is_paired (messages : list ChatMessage) (i : nat)
    (u a : ChatMessage) (p : nat) (q : ChatMessage) :
  messages !! i = Some u ->
  u.(ChatMessage.role) = "user" ->
  messages !! S i = Some a ->
  a.(ChatMessage.role) = "assistant" ->
  activeQuery messages p q ->
  u.(ChatMessage.id) <> q.(ChatMessage.id) ->
  (forall j m, j < i -> messages !! j = Some m ->
               m.(ChatMessage.id) <> u.(ChatMessage.id)) ->
  exists pre post,
    (POST encode bot api messages).(calls) =
      [ StartChat (pre ++ [ entry "user" u.(ChatMessage.content);
                            entry "model" a.(ChatMessage.content) ] ++ post);
        SendMessageStream q.(ChatMessage.content) ].
Proof.
  intros Hu Huser Ha Hassist Hact Hid Hfirst.
  rewrite (POST_calls _ _ _ _ _ _ Hact).
  assert (In q messages) as Hq.
  { destruct Hact as (Hq & _). apply list_elem_of_In. eapply list_elem_of_lookup_2; eauto. }
  rewrite (chatHistory_turns _ _ _ Hq).
  assert (u ∈ userMessages messages q) as Hin.
  { apply list_elem_of_filter. split; [tauto|]. eapply list_elem_of_lookup_2; eauto. }
  apply list_elem_of_split in Hin as (l1 & l2 & ->).
  rewrite flat_map_app. cbn [flat_map].
  rewrite (pushTurn_at messages i u) by (apply findIndex_first; trivial).
  rewrite Ha. rewrite decide_True by trivial.
  exists (priming bot ++ flat_map (pushTurn messages []) l1),
         (flat_map (pushTurn messages []) l2).
  rewrite <- !app_assoc. reflexivity.
Qed.

(** C4. In a transcript with unique ids and a user message, the text
    sent with [sendMessageStream] is the content of the most recent
    user message, and the history is the priming followed by entries
    drawn from positions of the transcript none of which is the
    position of that message. *)
Theorem active_query_only_sent (messages : list ChatMessage) :
  NoDup (ChatMessage.id <$> messages) ->
  Exists (fun m => m.(ChatMessage.role) = "user") messages ->
  exists p q rest,
    activeQuery messages p q /\
    (POST encode bot api messages).(calls) =
      [ StartChat (priming bot ++ rest);
        SendMessageStream q.(ChatMessage.content) ] /\
    Forall2 (derivedFrom messages) (sources messages p) rest /\
    p ∉ sources messages p.
Proof.
  intros Hnd Hex. destruct (activeQuery_exists _ Hex) as (p & q & Hact).
  exists p, q, (flat_map (pushTurn messages []) (userMessages messages q)).
  split; [exact Hact|]. split; [|split].
  - rewrite (POST_calls _ _ _ _ _ _ Hact). rewrite chatHistory_turns; [reflexivity|].
    destruct Hact as (Hq & _). apply list_elem_of_In. eapply list_elem_of_lookup_2; eauto.
  - apply (turns_sources messages p q Hnd Hact [] messages). reflexivity.
  - eapply active_not_source; eauto.
Qed.

(** C5. When a transcript is processed without error (the response
    has status 200), the history handed to the SDK is the synthetic
    user entry, then the model entry with the persona instruction,
    then only entries derived from messages of the transcript; for a
    greeting followed by one user message it is those two entries and
    nothing else. *)
Theorem history_begins_with_priming :
  (forall messages : list ChatMessage,
     (POST encode bot api messages).(response).(Response.status) = 200%N ->
     exists rest msg,
       (POST encode bot api messages).(calls) =
         [ StartChat (entry "user" bot.(acknowledge) ::
                      entry "model" bot.(systemPromptText) :: rest);
           SendMessageStream msg ] /\
       Forall (fun e => exists k, derivedFrom messages k e) rest) /\
  (forall g u : ChatMessage,
     g.(ChatMessage.role) = "assistant" ->
     u.(ChatMessage.role) = "user" ->
     (POST encode bot api [g; u]).(calls) =
       [ StartChat [ entry "user" bot.(acknowledge);
                     entry "model" bot.(systemPromptText) ];
         SendMessageStream u.(ChatMessage.content) ]).
Proof.
  split.
  - intros messages Hok.
    destruct (lastUserMessageIndex messages) as [i|] eqn:E.
    + apply lastUserMessageIndex_Some in E as [q Hact].
      assert (q ∈ messages) as Hq.
      { destruct Hact as (Hq & _). eapply list_elem_of_lookup_2; eauto. }
      exists (flat_map (pushTurn messages []) (userMessages messages q)),
             q.(ChatMessage.content).
      rewrite (POST_calls _ _ _ _ _ _ Hact).
      rewrite chatHistory_turns by (now apply list_elem_of_In).
      split; [reflexivity|].
      apply Forall_forall. intros e He.
      apply list_elem_of_In, in_flat_map in He as (m & Hm & He).
      apply list_elem_of_In, list_elem_of_filter in Hm as [[Hrole _] Hm].
      pose proof (pushTurn_derived messages m Hm Hrole) as Hall.
      rewrite Forall_forall in Hall. apply Hall. now apply list_elem_of_In.
    + exfalso. unfold POST in Hok. rewrite E in Hok. cbn [response] in Hok.
      destruct (onError_status (Error "No user message found")) as [H|H];
        rewrite H in Hok; discriminate.
  - intros g u Hg Hu.
    assert (activeQuery [g; u] 1 u) as Hact.
    { split; [reflexivity|]. split; [exact Hu|].
      intros [|[|[|j]]] m Hj Hm; simpl in Hm; try lia; discriminate. }
    rewrite (POST_calls _ _ _ _ _ _ Hact).
    rewrite chatHistory_turns by (simpl; auto).
    unfold userMessages. rewrite !filter_cons.
    rewrite decide_False by (rewrite Hg; intros [? _]; discriminate).
    rewrite decide_False by tauto.
    reflexivity.
Qed.

(** C8. A payload without a user message is answered with status 500
    and the JSON body [{ error: "No user message found" }]; the SDK is
    not called. *)
Theorem no_user_message_is_500 (messages : list ChatMessage) :
  Forall (fun m => m.(ChatMessage.role) <> "user") messages ->
  POST encode bot api messages =
    {| response :=
         {| Response.status := 500;
            Response.headers := [ ("Content-Type", "application/json") ];
            Response.body := JsonBody
              {| ErrorData.error := Some "No user message found";
                 ErrorData.message := None;
                 ErrorData.retryAfter := None |} |};
       calls := [] |}.
Proof.
  intros Hnone. apply lastUserMessageIndex_None in Hnone.
  unfold POST. rewrite Hnone. reflexivity.
Qed.

End HistoryClaims.

(** *** Instances on the sample transcripts *)
Module HistoryExamples.
Import Gemini Route Spec Sample.

Lemma answered_turn_is_paired_witness :
  exists pre post,
    (POST bytesOf challengeBot (answering []) conversation).(calls) =
      [ StartChat (pre ++ [ entry "user" "first"; entry "model" "reply" ] ++ post);
        SendMessageStream "second" ].
Proof.
  apply (answered_turn_is_paired bytesOf challengeBot (answering []) conversation 1
           (message "u1" "user" "first") (message "a1" "assistant" "reply")
           3 (message "u2" "user" "second")).
  - reflexivity.
  - reflexivity.
  - reflexivity.
  - reflexivity.
  - split; [reflexivity|]. split; [reflexivity|].
    intros [|[|[|[|j]]]] m Hj Hm; simpl in Hm; try lia; discriminate.
  - discriminate.
  - intros [|j] m Hj Hm; [|lia]. injection Hm as <-. discriminate.
Defined.

(** C3 as stated fails: in a transcript that ends with the reply to
    its only user message, that message is the active query, and the
    history holds the priming only, not the pair. *)
Lemma answered_active_query_unpaired :
  answered !! 0 = Some (message "1" "user" "a") /\
  answered !! 1 = Some (message "2" "assistant" "b") /\
  (POST bytesOf challengeBot (answering []) answered).(calls) =
    [ StartChat (priming challengeBot); SendMessageStream "a" ] /\
  ~ exists pre post,
      priming challengeBot = pre ++ [ entry "user" "a"; entry "model" "b" ] ++ post.
Proof.
  split; [reflexivity|]. split; [reflexivity|]. split; [reflexivity|].
  intros (pre & post & H).
  assert (In (entry "user" "a") (priming challengeBot)) as Hin.
  { rewrite H. apply in_or_app. right. left. reflexivity. }
  destruct Hin as [Hin|[Hin|[]]]; discriminate.
Qed.

(** The pair is also lost when an earlier message carries the id of
    the user message: the reply is looked up after that earlier one. *)
Example shared_id_unpaired :
  (POST bytesOf challengeBot (answering []) sharedId).(calls) =
    [ StartChat (priming challengeBot ++ [ entry "user" "q" ]);
      SendMessageStream "new" ].
Proof. reflexivity. Qed.

Lemma active_query_only_sent_witness :
  exists p q rest,
    activeQuery conversation p q /\
    (POST bytesOf legalBot (answering []) conversation).(calls) =
      [ StartChat (priming legalBot ++ rest);
        SendMessageStream q.(ChatMessage.content) ] /\
    Forall2 (derivedFrom conversation) (sources conversation p) rest /\
    p ∉ sources conversation p.
Proof.
  apply (active_query_only_sent bytesOf legalBot (answering []) conversation).
  - apply (bool_decide_unpack _). vm_compute. exact I.
  - right. left. reflexivity.
Defined.

(** On the sample conversation the history is the priming and the one
    answered turn. *)
Example conversation_history :
  (POST bytesOf legalBot (answering []) conversation).(calls) =
    [ StartChat (priming legalBot ++ [ entry "user" "first"; entry "model" "reply" ]);
      SendMessageStream "second" ] /\
  sources conversation 3 = [1; 2].
Proof. split; reflexivity. Qed.

Lemma history_begins_with_priming_witness :
  (POST bytesOf challengeBot (answering ["ok"]) conversation).(response).(Response.status)
    = 200%N /\
  (exists rest msg,
     (POST bytesOf challengeBot (answering ["ok"]) conversation).(calls) =
       [ StartChat (entry "user" challengeBot.(acknowledge) ::
                    entry "model" challengeBot.(systemPromptText) :: rest);
         SendMessageStream msg ] /\
     Forall (fun e => exists k, derivedFrom conversation k e) rest) /\
  (POST bytesOf challengeBot (answering ["ok"])
        [ message "1" "assistant" "hi"; message "u" "user" "hello" ]).(calls) =
    [ StartChat [ entry "user" challengeBot.(acknowledge);
                  entry "model" challengeBot.(systemPromptText) ];
      SendMessageStream "hello" ].
Proof.
  destruct (history_begins_with_priming bytesOf challengeBot (answering ["ok"]))
    as [Hall Hfirst].
  split; [reflexivity|]. split.
  - apply Hall. reflexivity.
  - apply (Hfirst (message "1" "assistant" "hi") (message "u" "user" "hello"));
      reflexivity.
Defined.

Lemma no_user_message_is_500_witness :
  Forall (fun m => m.(ChatMessage.role) <> "user") greetingOnly /\
  (POST bytesOf challengeBot (answering ["ok"]) greetingOnly).(response).(Response.status)
    = 500%N.
Proof.
  assert (Forall (fun m => m.(ChatMessage.role) <> "user") greetingOnly) as H.
  { repeat constructor. discriminate. }
  split; [exact H|].
  rewrite (no_user_message_is_500 bytesOf challengeBot (answering ["ok"]) greetingOnly H).
  reflexivity.
Defined.

End HistoryExamples.

(** ** The catch branch of [POST] *)
Module ErrorFacts.
Import Gemini Route Spec JsFacts.

#[local] Arguments String.append !_ _ / : simpl nomatch.

Lemma dropPrefix_spec (k s rest : string) :
  dropPrefix k s = Some rest <-> s = k +:+ rest.
Proof.
  revert s. induction k as [|c k IH]; intros s; simpl.
  - split; congruence.
  - destruct s as [|d s]; [split; discriminate|].
    destruct (Ascii.eqb_spec c d) as [->|Hne].
    + rewrite IH. split; congruence.
    + split; [discriminate | congruence].
Qed.

Lemma allDigits_cons (c : ascii) (ds : string) :
  allDigits (String c ds) <-> Js.isDigit c = true /\ allDigits ds.
Proof.
  unfold allDigits. simpl. split.
  - intros H. inversion H; subst. split; trivial.
  - intros [Hc Hds]. constructor; trivial.
Qed.

(** The digit run that [spanDigits] cuts off. *)
Lemma spanDigits_split (s ds rest : string) :
  Js.spanDigits s = (ds, rest) -> s = ds +:+ rest /\ allDigits ds.
Proof.
  revert ds rest. induction s as [|c s IH]; intros ds rest; simpl.
  - intros [= <- <-]. split; [reflexivity | constructor].
  - destruct (Js.isDigit c) eqn:Hc.
    + destruct (Js.spanDigits s) as [ds' rest'].
      intros [= <- <-]. destruct (IH ds' rest' eq_refl) as [-> Hds].
      split; [reflexivity | now apply allDigits_cons].
    + intros [= <- <-]. split; [reflexivity | constructor].
Qed.

Lemma spanDigits_run (ds : string) (c : ascii) (rest : string) :
  allDigits ds -> Js.isDigit c = false ->
  Js.spanDigits (ds +:+ String c rest) = (ds, String c rest).
Proof.
  intros Hds Hc. induction ds as [|d ds IH]; simpl.
  - now rewrite Hc.
  - apply allDigits_cons in Hds as [Hd Hds]. now rewrite Hd, (IH Hds).
Qed.

(** [matchHere] decides a match at the head. *)
Lemma matchHere_spec (s ds : string) :
  matchHere s = Some ds <-> matchesAt s 0 ds.
Proof.
  unfold matchHere, matchesAt. split.
  - destruct (dropPrefix retryDelayPrefix s) as [rest|] eqn:Hp; [|discriminate].
    apply dropPrefix_spec in Hp.
    destruct (Js.spanDigits rest) as [ds' after] eqn:Hspan.
    apply spanDigits_split in Hspan as [-> Hds].
    destruct (Js.truthy ds') eqn:Ht; [|discriminate].
    destruct (Js.startsWith after "s") eqn:Hs; [|discriminate].
    apply startsWith_spec in Hs as [b ->]. intros [= <-].
    exists "", b. split; [reflexivity|]. split; [|split]; trivial.
    intros ->. discriminate.
  - intros ([|x a] & b & Hlen & Hne & Hds & ->); [|discriminate].
    rewrite append_nil_l.
    assert (dropPrefix retryDelayPrefix (retryDelayPrefix +:+ ds +:+ "s" +:+ b)
            = Some (ds +:+ "s" +:+ b)) as -> by now apply dropPrefix_spec.
    change ("s" +:+ b) with (String "s" b).
    rewrite spanDigits_run by (trivial; reflexivity).
    destruct ds; [congruence | reflexivity].
Qed.

Lemma matchesAt_S (c : ascii) (s : string) (n : nat) (ds : string) :
  matchesAt (String c s) (S n) ds <-> matchesAt s n ds.
Proof.
  unfold matchesAt. split.
  - intros ([|x a] & b & Hlen & Hne & Hds & Heq); [discriminate|].
    injection Hlen as Hlen. injection Heq as _ Heq.
    exists a, b. split; [|split; [|split]]; trivial.
  - intros (a & b & Hlen & Hne & Hds & ->).
    exists (String c a), b. simpl. split; [congruence|]. split; [|split]; trivial.
Qed.

Lemma matchesAt_empty (n : nat) (ds : string) : ~ matchesAt "" n ds.
Proof.
  intros ([|x a] & b & _ & _ & _ & Heq); [|discriminate].
  vm_compute in Heq. discriminate.
Qed.

(** [retryDelayMatch] returns group 1 of the leftmost match. *)
Lemma retryDelayMatch_first (s : string) (n : nat) (ds : string) :
  matchesAt s n ds ->
  (forall k ds', k < n -> ~ matchesAt s k ds') ->
  retryDelayMatch s = Some ds.
Proof.
  revert n. induction s as [|c s IH]; intros n Hm Hfirst.
  - destruct (matchesAt_empty _ _ Hm).
  - destruct n as [|n].
    + apply matchHere_spec in Hm. cbn [retryDelayMatch]. now rewrite Hm.
    + cbn [retryDelayMatch].
      destruct (matchHere (String c s)) as [ds0|] eqn:H0.
      * apply matchHere_spec in H0. destruct (Hfirst 0 ds0); [lia | trivial].
      * apply (IH n); [now apply matchesAt_S in Hm|].
        intros k ds' Hk Hk'. apply (Hfirst (S k) ds'); [lia|]. now apply matchesAt_S.
Qed.

Lemma retryDelayMatch_None (s : string) :
  retryDelayMatch s = None <-> forall n ds, ~ matchesAt s n ds.
Proof.
  induction s as [|c s IH].
  - split; [intros _ n ds; apply matchesAt_empty | reflexivity].
  - cbn [retryDelayMatch]. destruct (matchHere (String c s)) as [ds0|] eqn:H0.
    + split; [discriminate|]. intros Hno.
      apply matchHere_spec in H0. destruct (Hno 0 ds0 H0).
    + rewrite IH. split; intros Hno n ds Hm.
      * destruct n as [|n].
        -- apply matchHere_spec in Hm. congruence.
        -- apply matchesAt_S in Hm. now apply (Hno n ds).
      * apply (Hno (S n) ds). now apply matchesAt_S.
Qed.

Lemma matchesAt_slice (s : string) (n : nat) (ds : string) :
  matchesAt s n ds -> matchHere (slice n s) = Some ds.
Proof.
  revert s. induction n as [|n IH]; intros s Hm.
  - now apply matchHere_spec.
  - destruct s as [|c s]; [destruct (matchesAt_empty _ _ Hm)|].
    apply matchesAt_S in Hm. simpl. now apply IH.
Qed.

Lemma noMatchBefore_spec (n : nat) (s : string) :
  noMatchBefore n s = true -> forall k ds, k < n -> ~ matchesAt s k ds.
Proof.
  unfold noMatchBefore. rewrite forallb_forall. intros Hall k ds Hk Hm.
  specialize (Hall k). rewrite (matchesAt_slice _ _ _ Hm) in Hall.
  enough (false = true) by discriminate.
  apply Hall, in_seq. lia.
Qed.

(** The response of [POST] when [sendMessageStream] gives a stream. *)
Lemma POST_streamed encode bot api (messages : list ChatMessage) p q
    (fragments : list string) (failure : option JsError) :
  activeQuery messages p q ->
  api (chatHistory bot messages q) q.(ChatMessage.content) = Streams fragments failure ->
  (POST encode bot api messages).(response) =
    {| Response.status := 200;
       Response.headers := [ ("Content-Type", "text/plain; charset=utf-8") ];
       Response.body := StreamBody (relay encode fragments failure) |}.
Proof.
  intros Hact Hstream. rewrite (RouteFacts.POST_active _ _ _ _ _ _ Hact). cbv zeta.
  now rewrite Hstream.
Qed.

(** The response of [POST] when [sendMessageStream] rejects. *)
Lemma POST_rejected encode bot api (messages : list ChatMessage) p q (error : JsError) :
  activeQuery messages p q ->
  api (chatHistory bot messages q) q.(ChatMessage.content) = Rejects error ->
  (POST encode bot api messages).(response) = onError error.
Proof.
  intros Hact Hrej. rewrite (RouteFacts.POST_active _ _ _ _ _ _ Hact). cbv zeta.
  now rewrite Hrej.
Qed.

End ErrorFacts.

Section ErrorClaims.
Import Gemini Route Spec JsFacts ErrorFacts.

Variable encode : string -> list Byte.byte.
Variable bot : Bot.
Variable api : list Content -> string -> Upstream.

Lemma occursIn_truthy (k s : string) : k <> "" -> Js.occursIn k s -> Js.truthy s = true.
Proof.
  intros Hk ([|x a] & b & ->); [|reflexivity].
  destruct k; [congruence | reflexivity].
Qed.

(** C6, as amended. When [sendMessageStream] rejects with an error
    that has status 429 or a message containing [429], and the
    leftmost retry-delay match in the message is [retryDelay":"17s],
    the response has status 429, [retryAfter] 17 in its JSON body and
    the header [Retry-After: 17]. *)
Theorem retry_delay_17_is_reported (messages : list ChatMessage) p q
    (error : JsError) (m pre post : string) :
  activeQuery messages p q ->
  api (chatHistory bot messages q) q.(ChatMessage.content) = Rejects error ->
  error.(JsError.message) = Some m ->
  error.(JsError.status) = Some 429%N \/ Js.occursIn "429" m ->
  m = pre +:+ retryDelayPrefix +:+ "17s" +:+ post ->
  (forall k ds, k < String.length pre -> ~ matchesAt m k ds) ->
  (POST encode bot api messages).(response) =
    {| Response.status := 429;
       Response.headers := [ ("Content-Type", "application/json");
                             ("Retry-After", "17") ];
       Response.body := JsonBody
         {| ErrorData.error := Some "Rate limit exceeded";
            ErrorData.message :=
              Some "Google AI API rate limit reached. Please try again in 17 seconds. The free tier of Gemini API has strict rate limits.";
            ErrorData.retryAfter := Some 17%N |} |}.
Proof.
  intros Hact Hrej Hmsg Hlimit Hm Hfirst.
  rewrite (POST_rejected _ _ _ _ _ _ _ Hact Hrej). unfold onError.
  assert (isRateLimit error = true) as ->.
  { unfold isRateLimit. rewrite Hmsg. apply orb_true_iff.
    destruct Hlimit as [Hs|Hin].
    - left. now apply bool_decide_eq_true.
    - right. apply andb_true_iff. split.
      + apply (occursIn_truthy "429"); [discriminate | trivial].
      + now apply includes_spec. }
  assert (retrySeconds error = 17%N) as ->; [|reflexivity].
  unfold retrySeconds. rewrite Hmsg.
  rewrite (retryDelayMatch_first m (String.length pre) "17"); [reflexivity| |exact Hfirst].
  exists pre, post. split; [reflexivity|]. split; [discriminate|].
  split; [|exact Hm]. repeat constructor.
Qed.

(** C7. When [sendMessageStream] rejects with an error of status 429
    whose message is absent or has no retry-delay match, the response
    has status 429, [retryAfter] 60 and the header [Retry-After: 60]. *)
Theorem retry_delay_defaults_to_60 (messages : list ChatMessage) p q (error : JsError) :
  activeQuery messages p q ->
  api (chatHistory bot messages q) q.(ChatMessage.content) = Rejects error ->
  error.(JsError.status) = Some 429%N ->
  (forall m, error.(JsError.message) = Some m -> forall n ds, ~ matchesAt m n ds) ->
  (POST encode bot api messages).(response) =
    {| Response.status := 429;
       Response.headers := [ ("Content-Type", "application/json");
                             ("Retry-After", "60") ];
       Response.body := JsonBody
         {| ErrorData.error := Some "Rate limit exceeded";
            ErrorData.message :=
              Some "Google AI API rate limit reached. Please try again in 60 seconds. The free tier of Gemini API has strict rate limits.";
            ErrorData.retryAfter := Some 60%N |} |}.
Proof.
  intros Hact Hrej Hstatus Hnone.
  rewrite (POST_rejected _ _ _ _ _ _ _ Hact Hrej). unfold onError.
  assert (isRateLimit error = true) as ->.
  { unfold isRateLimit. apply orb_true_iff. left. now apply bool_decide_eq_true. }
  assert (retrySeconds error = 60%N) as ->; [|reflexivity].
  unfold retrySeconds. destruct (JsError.message error) as [m|]; [|reflexivity].
  now rewrite (proj2 (retryDelayMatch_None m) (Hnone m eq_refl)).
Qed.

Lemma fold_forward (fragments : list string) (q : list (list Byte.byte)) :
  fold_left (forward encode) fragments q =
  q ++ (encode <$> filter (fun t => t <> "") fragments).
Proof.
  revert q. induction fragments as [|t ts IH]; intros q; simpl.
  - now rewrite app_nil_r.
  - rewrite IH, filter_cons. unfold forward.
    destruct (decide (t <> "")) as [Hne|He]; destruct t as [|c t]; try tauto.
    + cbn [Js.truthy fmap list_fmap]. now rewrite <- app_assoc.
    + destruct He. discriminate.
Qed.

Lemma join_nonempty (fragments : list string) :
  Js.join (filter (fun t => t <> "") fragments) = Js.join fragments.
Proof.
  induction fragments as [|t ts IH]; [reflexivity|].
  rewrite filter_cons. destruct (decide (t <> "")) as [Hne|He]; simpl.
  - now rewrite IH.
  - destruct t; [exact IH | destruct He; discriminate].
Qed.

(** C10. When the upstream gives the fragments [fragments], the body
    of the response is the stream of the encodings of the non-empty
    ones, in their order, and nothing else; leaving the empty ones
    out does not change the joined text. *)
Theorem empty_fragments_are_not_relayed (messages : list ChatMessage) p q
    (fragments : list string) (failure : option JsError) :
  activeQuery messages p q ->
  api (chatHistory bot messages q) q.(ChatMessage.content) = Streams fragments failure ->
  (exists stream,
     (POST encode bot api messages).(response).(Response.body) = StreamBody stream /\
     stream.(queue) = encode <$> filter (fun t => t <> "") fragments) /\
  Js.join (filter (fun t => t <> "") fragments) = Js.join fragments.
Proof.
  intros Hact Hstream. split; [|apply join_nonempty].
  rewrite (POST_streamed _ _ _ _ _ _ _ _ Hact Hstream). cbn [Response.body].
  eexists. split; [reflexivity|]. unfold relay. cbn [queue].
  now rewrite fold_forward.
Qed.

End ErrorClaims.

(** *** Instances on the sample errors *)
Module ErrorExamples.
Import Gemini Route Spec Sample ErrorFacts.

Lemma conversation_active : activeQuery conversation 3 (message "u2" "user" "second").
Proof.
  split; [reflexivity|]. split; [reflexivity|].
  intros [|[|[|[|j]]]] m Hj Hm; simpl in Hm; try lia; discriminate.
Qed.

Lemma retry_delay_17_is_reported_witness :
  (POST bytesOf legalBot (rejecting quotaExceeded) conversation).(response) =
    {| Response.status := 429;
       Response.headers := [ ("Content-Type", "application/json");
                             ("Retry-After", "17") ];
       Response.body := JsonBody
         {| ErrorData.error := Some "Rate limit exceeded";
            ErrorData.message :=
              Some "Google AI API rate limit reached. Please try again in 17 seconds. The free tier of Gemini API has strict rate limits.";
            ErrorData.retryAfter := Some 17%N |} |}.
Proof.
  apply (retry_delay_17_is_reported bytesOf legalBot (rejecting quotaExceeded)
           conversation 3 (message "u2" "user" "second") quotaExceeded
           ("[429 Too Many Requests] Resource has been exhausted. {"
            +:+ retryDelayPrefix +:+ "17s}")
           "[429 Too Many Requests] Resource has been exhausted. {" "}").
  - exact conversation_active.
  - reflexivity.
  - reflexivity.
  - right.
    exists "[", (" Too Many Requests] Resource has been exhausted. {"
                 +:+ retryDelayPrefix +:+ "17s}").
    reflexivity.
  - reflexivity.
  - apply noMatchBefore_spec. vm_compute. reflexivity.
Defined.

(** C6 as stated fails: an error whose message is [retryDelay":"17s]
    but which has no status 429 and no [429] in its message is not
    taken for a rate limit; the response has status 500 and no
    [retryAfter]. *)
Lemma retry_delay_without_429_is_500 :
  Js.occursIn (retryDelayPrefix +:+ "17s") (retryDelayPrefix +:+ "17s") /\
  bareRetryDelay.(JsError.message) = Some (retryDelayPrefix +:+ "17s") /\
  (POST bytesOf legalBot (rejecting bareRetryDelay) conversation).(response) =
    {| Response.status := 500;
       Response.headers := [ ("Content-Type", "application/json") ];
       Response.body := JsonBody
         {| ErrorData.error := Some (retryDelayPrefix +:+ "17s");
            ErrorData.message := None;
            ErrorData.retryAfter := None |} |}.
Proof.
  split; [apply JsFacts.occursIn_refl|]. split; reflexivity.
Qed.

(** The leftmost match counts: with two retry delays in the message,
    the first one is reported. *)
Example first_retry_delay_wins :
  Js.occursIn (retryDelayPrefix +:+ "17s")
              ("429 " +:+ retryDelayPrefix +:+ "5s " +:+ retryDelayPrefix +:+ "17s") /\
  (POST bytesOf legalBot (rejecting twoDelays) conversation).(response).(Response.headers) =
    [ ("Content-Type", "application/json"); ("Retry-After", "5") ].
Proof.
  split; [|reflexivity].
  exists ("429 " +:+ retryDelayPrefix +:+ "5s "), "". reflexivity.
Qed.

Lemma retry_delay_defaults_to_60_witness :
  plain429.(JsError.status) = Some 429%N /\
  (POST bytesOf challengeBot (rejecting plain429) conversation).(response) =
    {| Response.status := 429;
       Response.headers := [ ("Content-Type", "application/json");
                             ("Retry-After", "60") ];
       Response.body := JsonBody
         {| ErrorData.error := Some "Rate limit exceeded";
            ErrorData.message :=
              Some "Google AI API rate limit reached. Please try again in 60 seconds. The free tier of Gemini API has strict rate limits.";
            ErrorData.retryAfter := Some 60%N |} |}.
Proof.
  split; [reflexivity|].
  apply (retry_delay_defaults_to_60 bytesOf challengeBot (rejecting plain429)
           conversation 3 (message "u2" "user" "second") plain429).
  - exact conversation_active.
  - reflexivity.
  - reflexivity.
  - intros m [= <-]. apply retryDelayMatch_None. vm_compute. reflexivity.
Defined.

Lemma empty_fragments_are_not_relayed_witness :
  (exists stream,
     (POST bytesOf challengeBot (answering ["Hel"; ""; "lo"]) conversation)
       .(response).(Response.body) = StreamBody stream /\
     stream.(queue) = bytesOf <$> filter (fun t => t <> "") ["Hel"; ""; "lo"]) /\
  Js.join (filter (fun t => t <> "") ["Hel"; ""; "lo"]) = Js.join ["Hel"; ""; "lo"].
Proof.
  apply (empty_fragments_are_not_relayed bytesOf challengeBot
           (answering ["Hel"; ""; "lo"]) conversation 3
           (message "u2" "user" "second") ["Hel"; ""; "lo"] None).
  - exact conversation_active.
  - reflexivity.
Defined.

(** The relayed chunks of that stream. *)
Example relay_hello :
  relay bytesOf ["Hel"; ""; "lo"] None =
    {| queue := [ bytesOf "Hel"; bytesOf "lo" ]; ending := Closed |}.
Proof. reflexivity. Qed.

End ErrorExamples.

(** ** The page: the guard of [sendMessage] *)
Module PageFacts.
Import Page.

Lemma blank_cons (c : ascii) (s : string) :
  Js.blank (String c s) <-> Js.isWhiteSpace c = true /\ Js.blank s.
Proof.
  unfold Js.blank. simpl. split.
  - intros H. inversion H; subst. split; trivial.
  - intros [Hc Hs]. constructor; trivial.
Qed.

Lemma trimStart_blank (s : string) : Js.blank (Js.trimStart s) <-> Js.blank s.
Proof.
  induction s as [|c s IH]; simpl; [reflexivity|].
  destruct (Js.isWhiteSpace c) eqn:Hc; [|reflexivity].
  rewrite IH, blank_cons. tauto.
Qed.

Lemma trimEnd_empty (s : string) : Js.trimEnd s = "" <-> Js.blank s.
Proof.
  induction s as [|c s IH]; simpl.
  - split; [constructor | reflexivity].
  - rewrite blank_cons, <- IH.
    destruct (Js.trimEnd s) as [|d t]; [destruct (Js.isWhiteSpace c)|];
      split; try discriminate; try tauto; intros [? ?]; discriminate.
Qed.

(** The trimmed text is empty exactly for a blank text. *)
Lemma trim_truthy (s : string) : Js.truthy (Js.trim s) = false <-> Js.blank s.
Proof.
  unfold Js.trim. rewrite <- trimStart_blank, <- trimEnd_empty.
  destruct (Js.trimEnd (Js.trimStart s)); simpl; split; congruence.
Qed.

End PageFacts.

Section GuardClaim.
Import Page PageFacts.

Context {Decoder : Type}.
Variable newDecoder : Decoder.
Variable decode : Decoder -> list Byte.byte -> Decoder * string.
Variable fetch : list ChatMessage -> JsError + Fetched.

(** C9. For a text that is empty or all white space, and for any text
    while a request is in flight, [sendMessage] sets no state and
    sends no request: transcript, input field and the other cells are
    as before. *)
Theorem blank_or_busy_is_noop (st : State) (userId assistantId text : string) :
  Js.blank text \/ st.(isLoading) = true ->
  let run := sendMessage newDecoder decode fetch st userId assistantId text in
  run.(renders) = [] /\ run.(requests) = [] /\ settled st run = st.
Proof.
  intros Hguard. unfold sendMessage.
  assert (negb (Js.truthy (Js.trim text)) || st.(isLoading) = true) as ->.
  { apply orb_true_iff. destruct Hguard as [Hblank|Hbusy]; [left | right; trivial].
    apply trim_truthy in Hblank. now rewrite Hblank. }
  repeat split.
Qed.

(** The guard lets every other call through: the user message is
    appended and one request goes out. *)
Lemma ready_call_sends (st : State) (userId assistantId text : string) :
  ~ Js.blank text -> st.(isLoading) = false ->
  let run := sendMessage newDecoder decode fetch st userId assistantId text in
  run.(requests) =
    [ toWire <$> st.(messages) ++
                 [ {| id := userId; role := user; content := text |} ] ].
Proof.
  intros Hblank Hready. unfold sendMessage.
  assert (negb (Js.truthy (Js.trim text)) || st.(isLoading) = false) as ->.
  { rewrite Hready, orb_false_r. destruct (Js.truthy (Js.trim text)) eqn:E; trivial.
    apply trim_truthy in E. tauto. }
  destruct (receive _ _ _ _ _) as [received thrown]. reflexivity.
Qed.

End GuardClaim.

Module GuardExamples.
Import Page Sample.

Lemma blank_or_busy_is_noop_witness :
  (Js.blank "  " /\
   (sendMessage tt textOf (fun _ => inl (Error "offline")) idle "u" "a" "  ").(requests)
     = []) /\
  (busy.(isLoading) = true /\
   settled busy
     (sendMessage tt textOf (fun _ => inl (Error "offline")) busy "u" "a" "And another one")
     = busy).
Proof.
  split.
  - assert (Js.blank "  ") as H by (repeat constructor).
    split; [exact H|].
    apply (blank_or_busy_is_noop tt textOf (fun _ => inl (Error "offline"))
             idle "u" "a" "  " (or_introl H)).
  - split; [reflexivity|].
    apply (blank_or_busy_is_noop tt textOf (fun _ => inl (Error "offline"))
             busy "u" "a" "And another one" (or_intror eq_refl)).
Defined.

End GuardExamples.

(** ** Streaming: from the upstream fragments to the page *)
Section Streaming.
Import Gemini Route Spec Page JsFacts.

#[local] Arguments String.append !_ _ / : simpl nomatch.

Context {Decoder : Type}.
Variable encode : string -> list Byte.byte.
Variable newDecoder : Decoder.
Variable decode : Decoder -> list Byte.byte -> Decoder * string.

(** A streaming decoder goes byte by byte, so cutting the input
    differently does not change the text that comes out in total
    ([Utf8Facts.decoder_nil] and [Utf8Facts.decoder_app] for the
    decoder of the platform). *)
Hypothesis decode_nil : forall d, decode d [] = (d, "").
Hypothesis decode_app : forall d a b,
  decode d (a ++ b) =
  let '(d1, s1) := decode d a in
  let '(d2, s2) := decode d1 b in
  (d2, s1 +:+ s2).

Lemma prefixOf_refl (s : string) : Js.prefixOf s s.
Proof. exists "". now rewrite append_nil_r. Qed.

Lemma prefixOf_append (a b c : string) : Js.prefixOf (a +:+ b) c -> Js.prefixOf a c.
Proof. intros [r ->]. exists (b +:+ r). apply append_assoc. Qed.

Lemma prefixOf_length (a b : string) :
  Js.prefixOf a b -> String.length a <= String.length b.
Proof.
  intros [r ->]. induction a as [|c a IH]; simpl; lia.
Qed.

(** The read loop ends with everything decoded and appended. *)
Lemma responseTexts_last (chunks : list (list Byte.byte)) (d : Decoder) (t : string) :
  last (t :: responseTexts decode chunks d t) =
  Some (t +:+ snd (decode d (concat chunks))).
Proof.
  revert d t. induction chunks as [|value chunks IH]; intros d t; simpl.
  - now rewrite decode_nil, append_nil_r.
  - rewrite decode_app. destruct (decode d value) as [d1 c1].
    rewrite last_cons_cons, IH.
    destruct (decode d1 (concat chunks)) as [d2 s2]. simpl.
    now rewrite append_assoc.
Qed.

Lemma responseTexts_prefixes (chunks : list (list Byte.byte)) (d : Decoder) (t : string) :
  Forall (fun c => Js.prefixOf c (t +:+ snd (decode d (concat chunks))))
         (t :: responseTexts decode chunks d t).
Proof.
  revert d t. induction chunks as [|value chunks IH]; intros d t; simpl.
  - rewrite decode_nil. simpl. rewrite append_nil_r. repeat constructor. apply prefixOf_refl.
  - specialize (IH (fst (decode d value)) (t +:+ snd (decode d value))).
    rewrite decode_app. destruct (decode d value) as [d1 c1]. simpl in IH.
    destruct (decode d1 (concat chunks)) as [d2 s2]. simpl in *.
    rewrite <- append_assoc. constructor; [|exact IH].
    inversion IH; subst. eapply prefixOf_append; eauto.
Qed.

Lemma responseTexts_growing (chunks : list (list Byte.byte)) (d : Decoder) (t : string) :
  growing (t :: responseTexts decode chunks d t).
Proof.
  revert d t. induction chunks as [|value chunks IH]; intros d t; simpl.
  - intros i c1 c2 _ H2. destruct i; discriminate.
  - destruct (decode d value) as [d1 c1] eqn:E.
    intros [|i] a b Ha Hb.
    + injection Ha as <-. injection Hb as <-.
      assert (Js.prefixOf t (t +:+ c1)) as Hp by (now exists c1).
      split; [exact Hp | now apply prefixOf_length].
    + apply (IH d1 (t +:+ c1) i a b); assumption.
Qed.

Lemma growing_snoc (texts : list string) (c : string) :
  growing texts -> last texts = Some c -> growing (texts ++ [c]).
Proof.
  intros Hg Hlast i c1 c2 H1 H2.
  destruct (decide (S i < length texts)) as [Hlt|Hge].
  - rewrite lookup_app_l in H1, H2 by lia. eauto.
  - assert (S i = length texts) as Hi.
    { apply lookup_lt_Some in H2. rewrite length_app in H2. simpl in H2. lia. }
    rewrite lookup_app_l in H1 by lia.
    rewrite Hi, list_lookup_middle in H2 by reflexivity.
    rewrite last_lookup in Hlast. rewrite <- Hi in Hlast. simpl in Hlast.
    assert (c1 = c2) as -> by congruence.
    split; [apply prefixOf_refl | lia].
Qed.

(** The message shown last after each round of the read loop. *)
Lemma readLoop_last (assistantId : string) (chunks : list (list Byte.byte))
    (d : Decoder) (t : string) (st : State) (m : Message) :
  last st.(messages) = Some m -> m.(id) = assistantId ->
  (fun s => last s.(messages)) <$> readLoop decode assistantId chunks d t st =
  (fun c => Some {| id := assistantId; role := m.(role); content := c |})
    <$> responseTexts decode chunks d t.
Proof.
  revert d t st m. induction chunks as [|value chunks IH]; intros d t st m Hlast Hid.
  - reflexivity.
  - cbn [readLoop responseTexts]. destruct (decode d value) as [d1 c1].
    cbn [fmap list_fmap]. fold (@fmap list _ State).
    set (m' := {| id := assistantId; role := m.(role); content := t +:+ c1 |}).
    assert (last (messages (setMessages (fmap (withContent assistantId (t +:+ c1))) st))
            = Some m') as Hlast'.
    { cbn [setMessages messages]. rewrite fmap_last, Hlast. simpl.
      unfold withContent. rewrite decide_True by trivial. now rewrite Hid. }
    rewrite Hlast'. f_equal.
    apply (IH d1 (t +:+ c1) _ m' Hlast' eq_refl).
Qed.

Lemma last_default {A} (l : list A) (d x : A) : last l = Some x -> List.last l d = x.
Proof.
  intros H. apply last_Some in H as [l' ->]. apply last_last.
Qed.

End Streaming.

(** ** The codec: well-formed texts come back *)
Module Utf8Facts.
Import Utf8.
Local Open Scope N_scope.




























End Utf8Facts.

(** ** The relay and the read loop on texts of 16-bit code units *)
Module StreamFacts.
Import Utf8 Stream Utf8Facts.







Lemma omap_lookup {A B} (f : A -> option B) (l : list A) (i : nat) :
  (forall a, a ∈ l -> is_Some (f a)) ->
  omap f l !! i = l !! i ≫= f.
Proof.
  revert i. induction l as [|a l IH]; intros i Hall; [reflexivity|].
  cbn [omap list_omap]. destruct (Hall a) as [b Hb]; [left|]. rewrite Hb.
  destruct i as [|i]; [symmetry; exact Hb|]. apply IH. intros a' Ha'. apply Hall. now right.
Qed.

(** Every updater may run at its call, as in [Page.readLoop]: the
    contents are then the values of [responseText] one by one. *)
Lemma schedule_at_call (n : nat) : schedule n (seq 0 n).
Proof.
  split; [apply length_seq|]. split.
  - intros i k Hk. apply lookup_seq in Hk. lia.
  - intros i k k' Hk Hk'. apply lookup_seq in Hk, Hk'. lia.
Qed.

Lemma contents_at_call (texts : list (list N)) :
  contents texts (seq 0 (length texts)) = [] :: texts.
Proof.
  unfold contents. f_equal. apply list_eq. intros i. rewrite omap_lookup.
  - destruct (decide (i < length texts)) as [Hi|Hi].
    + now rewrite lookup_seq_lt.
    + rewrite lookup_seq_ge by lia. symmetry. apply lookup_ge_None. lia.
  - intros k Hk. apply elem_of_seq in Hk. apply lookup_lt_is_Some. lia.
Qed.




End StreamFacts.

Section StreamClaim.
Import Utf8 Stream Utf8Facts StreamFacts.


End StreamClaim.

(** *** Runs of the two loops *)
Module StreamExamples.
Import Utf8 Stream.
Import Byte.



(** The two halves of a surrogate pair in two fragments are encoded
    one by one, each as U+FFFD. *)
Example lone_surrogate_is_replaced :
  let fragments := [ [0xD83D]; [0xDE00] ]%N in
  relay fragments = [ [xef; xbf; xbd]; [xef; xbf; xbd] ] /\
  contents (responseTexts (relay fragments) fresh []) [0; 1] =
    [ []; [0xFFFD]; [0xFFFD; 0xFFFD] ]%N.
Proof. split; reflexivity. Qed.

End StreamExamples.

(** *** An instance: the sample codec over a byte-wise network *)
Module StreamingExamples.
Import Gemini Route Spec Page Sample.

Lemma textOf_nil (d : unit) : textOf d [] = (d, "").
Proof. reflexivity. Qed.

Lemma textOf_app (d : unit) (a b : list Byte.byte) :
  textOf d (a ++ b) =
  let '(d1, s1) := textOf d a in
  let '(d2, s2) := textOf d1 b in
  (d2, s1 +:+ s2).
Proof.
  unfold textOf. f_equal. induction a as [|x a IH]; [reflexivity|].
  exact (f_equal (String (ascii_of_byte x)) IH).
Defined.

Lemma byteWise_delivers (r : Response) : delivers r (byteWise r).
Proof.
  split; [reflexivity|]. split; [intros name value H; exact H|].
  unfold byteWise. destruct (Response.body r) as [data|s]; cbn; [reflexivity|].
  eexists. split; [reflexivity|]. cbn.
  assert (concat ((fun b => [b]) <$> concat (queue s)) = concat (queue s)) as ->.
  { induction (concat (queue s)) as [|b l IH]; [reflexivity|].
    cbn. f_equal. exact IH. }
  split; destruct (ending s); reflexivity || exact I.
Defined.

(** What the page shows for the fragments [Hel], the empty one and
    [lo], from the empty assistant message on: a content per byte
    received, then the settled state. *)
Example hello_contents :
  let api := answering ["Hel"; ""; "lo"] in
  let fetch := fun request => inr (byteWise (POST bytesOf challengeBot api request).(response)) in
  shown <$> drop 4 (sendMessage tt textOf fetch idle "u" "a" "Hi").(renders) =
    Some <$> [ ""; "H"; "He"; "Hel"; "Hell"; "Hello"; "Hello" ].
Proof. vm_compute. reflexivity. Qed.

End StreamingExamples.

(** ** Further properties of the route *)
Module HistoryShape.
Import Gemini Route Spec Conversation RouteFacts.

Lemma modelFollowsUser_app (h1 h2 : list Content) :
  modelFollowsUser h1 -> modelFollowsUser h2 -> modelFollowsUser (h1 ++ h2).
Proof.
  intros H1 H2 i e Hi Hmodel.
  apply lookup_app_Some in Hi as [Hi | [Hge Hi]].
  - destruct (H1 i e Hi Hmodel) as (j & e' & -> & Hj & Hu).
    exists j, e'. split; [reflexivity|]. split; [|exact Hu].
    now apply lookup_app_l_Some.
  - destruct (H2 _ e Hi Hmodel) as (j & e' & Hij & Hj & Hu).
    exists (length h1 + j), e'. split; [lia|]. split; [|exact Hu].
    rewrite lookup_app_r by lia. now replace (length h1 + j - length h1) with j by lia.
Qed.

Lemma modelFollowsUser_pair (t1 r2 t2 : string) :
  modelFollowsUser [ entry "user" t1; entry r2 t2 ].
Proof.
  intros [|[|i]] e Hi Hmodel; simpl in Hi.
  - injection Hi as <-. discriminate Hmodel.
  - exists 0, (entry "user" t1). repeat split.
  - discriminate.
Qed.

Lemma modelFollowsUser_single (t : string) : modelFollowsUser [ entry "user" t ].
Proof.
  intros [|i] e Hi Hmodel; simpl in Hi; [|discriminate].
  injection Hi as <-. discriminate Hmodel.
Qed.

(** The entries of one turn: a user entry, alone or with a model
    entry behind it. *)
Lemma pushTurn_shape (messages : list ChatMessage) (u : ChatMessage) :
  pushTurn messages [] u = [ entry "user" u.(ChatMessage.content) ] \/
  exists t, pushTurn messages [] u =
            [ entry "user" u.(ChatMessage.content); entry "model" t ].
Proof.
  unfold pushTurn.
  destruct (messages !! indexSucc _) as [next|]; [destruct (decide _)|]; simpl; eauto.
Qed.

Lemma turns_modelFollowsUser (messages us : list ChatMessage) :
  modelFollowsUser (flat_map (pushTurn messages []) us).
Proof.
  induction us as [|u us IH]; simpl.
  - intros i e Hi. discriminate.
  - apply modelFollowsUser_app; [|exact IH].
    destruct (pushTurn_shape messages u) as [-> | [t ->]].
    + apply modelFollowsUser_single.
    + apply modelFollowsUser_pair.
Qed.

Lemma turns_wellShaped (messages us : list ChatMessage) :
  wellShaped (flat_map (pushTurn messages []) us).
Proof.
  unfold wellShaped. induction us as [|u us IH]; simpl; [constructor|].
  apply Forall_app. split; [|exact IH].
  destruct (pushTurn_shape messages u) as [-> | [t ->]];
    repeat (constructor; [split; [simpl; auto | eexists; reflexivity]|]);
    constructor.
Qed.

(** The history as priming and turns, for any transcript. *)
Lemma chatHistory_cases bot (messages : list ChatMessage) (q : ChatMessage) :
  exists us, chatHistory bot messages q =
             priming bot ++ flat_map (pushTurn messages []) us.
Proof.
  unfold chatHistory. destruct (decide (1 < length messages)).
  - eexists. apply fold_pushTurn.
  - exists []. reflexivity.
Qed.

(** X2. Whatever the transcript, the history opens with a user entry,
    has only user and model entries with one text part each, and
    every model entry in it stands right after a user entry. *)
Theorem history_roles_alternate bot (messages : list ChatMessage) (q : ChatMessage) :
  let h := chatHistory bot messages q in
  (exists first rest, h = first :: rest /\ first.(role) = "user") /\
  wellShaped h /\
  modelFollowsUser h.
Proof.
  intros h. unfold h. destruct (chatHistory_cases bot messages q) as [us ->].
  split; [|split].
  - eexists _, _. split; reflexivity.
  - apply Forall_app. split; [|apply turns_wellShaped].
    repeat (constructor; [split; [simpl; auto | eexists; reflexivity]|]).
    constructor.
  - apply modelFollowsUser_app; [|apply turns_modelFollowsUser].
    apply modelFollowsUser_pair.
Qed.

(** The user messages of a page transcript, other than the question,
    are the first halves of its exchanges. *)
Lemma userMessages_transcript (g : ChatMessage) (xs : list Exchange) (q : ChatMessage) :
  NoDup (ChatMessage.id <$> transcript g xs q) ->
  g.(ChatMessage.role) = "assistant" ->
  Forall isExchange xs ->
  userMessages (transcript g xs q) q = fst <$> xs.
Proof.
  intros Hnd Hg Hxs. unfold userMessages, transcript.
  rewrite filter_cons, decide_False by (rewrite Hg; intros [? _]; discriminate).
  rewrite filter_app. rewrite (filter_cons _ q), decide_False by tauto.
  rewrite filter_nil, app_nil_r.
  assert (forall m, m ∈ flat_map turnMessages xs ->
                    m.(ChatMessage.id) <> q.(ChatMessage.id)) as Hother.
  { intros m Hm Heq. unfold transcript in Hnd.
    rewrite fmap_cons, fmap_app in Hnd.
    apply NoDup_cons in Hnd as [_ Hnd]. apply NoDup_app in Hnd as (_ & Hdisj & _).
    apply (Hdisj m.(ChatMessage.id)).
    - apply list_elem_of_fmap. eauto.
    - rewrite Heq. simpl. apply list_elem_of_here. }
  clear Hnd. induction Hxs as [|[u a] xs [Hu Ha] Hxs IH]; [reflexivity|].
  simpl in *. rewrite !filter_cons.
  rewrite decide_True by (split; [exact Hu | apply Hother; left]).
  rewrite decide_False by (rewrite Ha; intros [? _]; discriminate).
  f_equal. apply IH. intros m Hm. apply Hother. right. right. exact Hm.
Qed.

(** Each exchange of the transcript gives its two entries. *)
Lemma turns_of_exchanges (messages : list ChatMessage) (xs : list Exchange) :
  NoDup (ChatMessage.id <$> messages) ->
  Forall isExchange xs ->
  forall pre post, messages = pre ++ flat_map turnMessages xs ++ post ->
    flat_map (pushTurn messages []) (fst <$> xs) = flat_map turnEntries xs.
Proof.
  intros Hnd Hxs. induction Hxs as [|[u a] xs [Hu Ha] Hxs IH]; intros pre post Hm;
    [reflexivity|].
  csimpl in *.
  assert (messages !! length pre = Some u) as Hlu.
  { rewrite Hm. now apply list_lookup_middle. }
  assert (messages !! S (length pre) = Some a) as Hla.
  { rewrite Hm. rewrite (lookup_app_r pre) by lia.
    now replace (S (length pre) - length pre) with 1 by lia. }
  rewrite (pushTurn_at messages (length pre) u) by (apply findIndex_unique; trivial).
  rewrite Hla, decide_True by exact Ha.
  rewrite (IH (pre ++ [u; a]) post) by (rewrite Hm, <- app_assoc; reflexivity).
  reflexivity.
Qed.

(** The calls of [POST] on the transcript of a page. *)
Lemma transcript_calls encode bot api (greeting : ChatMessage) (exchanges : list Exchange)
    (question : ChatMessage) :
  NoDup (ChatMessage.id <$> transcript greeting exchanges question) ->
  greeting.(ChatMessage.role) = "assistant" ->
  Forall isExchange exchanges ->
  question.(ChatMessage.role) = "user" ->
  (POST encode bot api (transcript greeting exchanges question)).(calls) =
    [ StartChat (priming bot ++ flat_map turnEntries exchanges);
      SendMessageStream question.(ChatMessage.content) ].
Proof.
  intros Hnd Hg Hxs Hq.
  set (messages := transcript greeting exchanges question) in *.
  assert (activeQuery messages (S (length (flat_map turnMessages exchanges))) question)
    as Hact.
  { unfold messages, transcript. split; [|split].
    - cbn [lookup list_lookup]. now apply list_lookup_middle.
    - exact Hq.
    - intros j m Hj Hm. apply lookup_lt_Some in Hm.
      cbn [length] in Hm. rewrite length_app in Hm. simpl in Hm. lia. }
  rewrite (POST_calls _ _ _ _ _ _ Hact).
  rewrite chatHistory_turns.
  - unfold messages at 2. rewrite (userMessages_transcript _ _ _ Hnd Hg Hxs).
    rewrite (turns_of_exchanges messages exchanges Hnd Hxs [greeting] [question]);
      reflexivity.
  - destruct Hact as (Hlook & _). apply list_elem_of_In.
    eapply list_elem_of_lookup_2; eauto.
Qed.

End HistoryShape.

Module ErrorShape.
Import Gemini Route Spec JsFacts ErrorFacts.

(** The guard of the rate-limit branch, in words. *)
Lemma isRateLimit_spec (error : JsError) :
  isRateLimit error = true <->
  error.(JsError.status) = Some 429%N \/
  exists m, error.(JsError.message) = Some m /\ Js.occursIn "429" m.
Proof.
  unfold isRateLimit. rewrite orb_true_iff, bool_decide_eq_true.
  split; (intros [Hs|Hm]; [left; exact Hs | right]).
  - destruct (JsError.message error) as [m|]; [|discriminate].
    apply andb_true_iff in Hm as [_ Hm]. exists m. split; [reflexivity|].
    now apply includes_spec.
  - destruct Hm as (m & -> & Hin). apply andb_true_iff. split.
    + apply (occursIn_truthy "429"); [discriminate | exact Hin].
    + now apply includes_spec.
Qed.

(** What [retryDelayMatch] returns is group 1 of the leftmost match. *)
Lemma retryDelayMatch_Some (s ds : string) :
  retryDelayMatch s = Some ds ->
  exists k, matchesAt s k ds /\ forall j ds', j < k -> ~ matchesAt s j ds'.
Proof.
  revert ds. induction s as [|c s IH]; intros ds; cbn [retryDelayMatch].
  - destruct (matchHere "") as [ds0|] eqn:H0; [|discriminate].
    intros [= <-]. exists 0. split; [now apply matchHere_spec | intros; lia].
  - destruct (matchHere (String c s)) as [ds0|] eqn:H0.
    + intros [= <-]. exists 0. split; [now apply matchHere_spec | intros; lia].
    + intros Hrec. destruct (IH ds Hrec) as (k & Hk & Hfirst).
      exists (S k). split; [now apply matchesAt_S|].
      intros [|j] ds' Hj Hm.
      * apply matchHere_spec in Hm. congruence.
      * apply matchesAt_S in Hm. apply (Hfirst j ds'); [lia | exact Hm].
Qed.

Lemma parse_digits_pos (d : Decimal.uint) (acc : positive) :
  fold_left (fun a c => (a * 10 + Js.digitValue c)%N)
            (list_ascii_of_string (NilEmpty.string_of_uint d)) (Npos acc)
  = Npos (Pos.of_uint_acc d acc).
Proof.
  revert acc. induction d; intros acc; cbn [NilEmpty.string_of_uint
    list_ascii_of_string fold_left Pos.of_uint_acc]; try reflexivity;
    match goal with
    | |- fold_left _ _ ?x = _ =>
        match goal with
        | |- _ = Npos (Pos.of_uint_acc _ ?y) =>
            replace x with (Npos y) by (unfold Js.digitValue; cbn; lia)
        end
    end; apply IHd.
Qed.

Lemma parse_digits (d : Decimal.uint) :
  Js.parseInt (NilEmpty.string_of_uint d) = N.of_uint d.
Proof.
  unfold Js.parseInt, N.of_uint.
  induction d; cbn [NilEmpty.string_of_uint list_ascii_of_string fold_left Pos.of_uint];
    try reflexivity;
    try (match goal with
         | |- fold_left _ _ ?x = Npos (Pos.of_uint_acc _ ?y) =>
             change x with (Npos y)
         end; apply parse_digits_pos).
  exact IHd.
Qed.

(** The decimal text of a number parses back to the number. *)
Lemma parseInt_toString (n : N) : Js.parseInt (Js.toString n) = n.
Proof.
  destruct n as [|p]; [reflexivity|].
  unfold Js.toString. rewrite parse_digits. apply DecimalN.Unsigned.of_to.
Qed.

End ErrorShape.

Section RouteExtras.
Import Gemini Route Spec Conversation JsFacts RouteFacts ErrorFacts ErrorShape HistoryShape.

Variable encode : string -> list Byte.byte.
Variable bot : Bot.
Variable api : list Content -> string -> Upstream.

(** X1. Whatever the request, the status of the response is 200, 429
    or 500. It is 200 exactly when the body gives messages with a
    user message among them and [sendMessageStream] gives a stream
    for the active query. It is 429 exactly when the error that the
    [catch] meets has status 429 or [429] in its message, be it the
    error of [req.json()] or the one [sendMessageStream] rejects
    with. *)
Theorem POST_status_cases (body : JsError + list ChatMessage) :
  let r := (Request.POST encode bot api body).(response) in
  (r.(Response.status) = 200%N \/ r.(Response.status) = 429%N \/
   r.(Response.status) = 500%N) /\
  (r.(Response.status) = 200%N <->
   exists messages p q fragments failure,
     body = inr messages /\
     activeQuery messages p q /\
     api (chatHistory bot messages q) q.(ChatMessage.content)
       = Streams fragments failure) /\
  (r.(Response.status) = 429%N <->
   exists error,
     (body = inl error \/
      exists messages p q,
        body = inr messages /\
        activeQuery messages p q /\
        api (chatHistory bot messages q) q.(ChatMessage.content) = Rejects error) /\
     (error.(JsError.status) = Some 429%N \/
      exists m, error.(JsError.message) = Some m /\ Js.occursIn "429" m)).
Proof.
  intros r. unfold r. destruct body as [thrown|messages]; cbn [Request.POST].
  { cbn [response]. unfold onError.
    destruct (isRateLimit thrown) eqn:Hrl; cbn [Response.status].
    - split; [auto|]. split.
      + split; [discriminate|]. intros (? & ? & ? & ? & ? & Hbody & _). discriminate Hbody.
      + split; [|reflexivity]. intros _. exists thrown. split; [now left|].
        now apply isRateLimit_spec.
    - split; [auto|]. split.
      + split; [discriminate|]. intros (? & ? & ? & ? & ? & Hbody & _). discriminate Hbody.
      + split; [discriminate|]. intros (error & [Hbody|(? & ? & ? & Hbody & _)] & Hrl').
        * injection Hbody as <-. apply isRateLimit_spec in Hrl'. congruence.
        * discriminate Hbody. }
  destruct (lastUserMessageIndex messages) as [i|] eqn:E.
  - apply lastUserMessageIndex_Some in E as [q Hact].
    set (p := length messages - 1 - i) in Hact.
    rewrite (POST_active _ _ _ _ _ _ Hact). cbv zeta.
    destruct (api (chatHistory bot messages q) (ChatMessage.content q))
      as [error|fragments failure] eqn:Hapi; cbn [response].
    + unfold onError. destruct (isRateLimit error) eqn:Hrl; cbn [Response.status].
      * split; [auto|]. split.
        -- split; [discriminate|].
           intros (messages' & p' & q' & fs & fl & [= <-] & Hact' & Hapi').
           destruct (activeQuery_unique _ _ _ _ _ Hact Hact') as [_ <-]. congruence.
        -- split; [|reflexivity]. intros _. exists error. split.
           ++ right. exists messages, p, q. auto.
           ++ now apply isRateLimit_spec.
      * split; [auto|]. split.
        -- split; [discriminate|].
           intros (messages' & p' & q' & fs & fl & [= <-] & Hact' & Hapi').
           destruct (activeQuery_unique _ _ _ _ _ Hact Hact') as [_ <-]. congruence.
        -- split; [discriminate|].
           intros (error' & [Hbody|(messages' & p' & q' & [= <-] & Hact' & Hapi')] & Hrl');
             [discriminate Hbody|].
           destruct (activeQuery_unique _ _ _ _ _ Hact Hact') as [_ <-].
           assert (error' = error) as -> by congruence.
           apply isRateLimit_spec in Hrl'. congruence.
    + cbn [Response.status]. split; [auto|]. split.
      * split; [|reflexivity]. intros _. exists messages, p, q, fragments, failure. auto.
      * split; [discriminate|].
        intros (error' & [Hbody|(messages' & p' & q' & [= <-] & Hact' & Hapi')] & _);
          [discriminate Hbody|].
        destruct (activeQuery_unique _ _ _ _ _ Hact Hact') as [_ <-]. congruence.
  - pose proof E as Hnone. apply lastUserMessageIndex_None in Hnone.
    unfold Route.POST. rewrite E. cbn [response].
    change (onError (Error "No user message found")).(Response.status) with 500%N.
    assert (forall p q, ~ activeQuery messages p q) as Hno.
    { intros p q (Hq & Hu & _). rewrite Forall_lookup in Hnone. exact (Hnone p q Hq Hu). }
    split; [auto|]. split; (split; [discriminate|]).
    + intros (messages' & p & q & _ & _ & [= <-] & Hact & _). destruct (Hno p q Hact).
    + intros (error & [Hbody|(messages' & p & q & [= <-] & Hact & _)] & _);
        [discriminate Hbody|]. destruct (Hno p q Hact).
Qed.

(** X3. For the transcript of a page, a greeting, the answered
    questions with their replies and the new question, all with
    different ids, the history handed to the SDK is the priming
    followed by a user entry and a model entry for each answered
    question, in order; the greeting is not in it, and the new
    question is the text sent. *)
Theorem page_transcript_history (greeting : ChatMessage) (exchanges : list Exchange)
    (question : ChatMessage) :
  NoDup (ChatMessage.id <$> transcript greeting exchanges question) ->
  greeting.(ChatMessage.role) = "assistant" ->
  Forall isExchange exchanges ->
  question.(ChatMessage.role) = "user" ->
  (POST encode bot api (transcript greeting exchanges question)).(calls) =
    [ StartChat (priming bot ++ flat_map turnEntries exchanges);
      SendMessageStream question.(ChatMessage.content) ].
Proof. apply transcript_calls. Qed.

(** X4. When [sendMessageStream] rejects with an error that has no
    status 429 and no [429] in its message, the response has status
    500, no [Retry-After] header, and a JSON body whose [error] is the
    message of the error, or a fixed text when the error has no
    message or an empty one. *)
Theorem other_errors_are_500 (messages : list ChatMessage) p q (error : JsError) :
  activeQuery messages p q ->
  api (chatHistory bot messages q) q.(ChatMessage.content) = Rejects error ->
  error.(JsError.status) <> Some 429%N ->
  (forall m, error.(JsError.message) = Some m -> ~ Js.occursIn "429" m) ->
  (POST encode bot api messages).(response) =
    {| Response.status := 500;
       Response.headers := [ ("Content-Type", "application/json") ];
       Response.body := JsonBody
         {| ErrorData.error :=
              Some (match error.(JsError.message) with
                    | Some (String c m) => String c m
                    | _ => "Failed to process chat request"
                    end);
            ErrorData.message := None;
            ErrorData.retryAfter := None |} |}.
Proof.
  intros Hact Hrej Hstatus Hmsg.
  rewrite (POST_rejected _ _ _ _ _ _ _ Hact Hrej). unfold onError.
  assert (isRateLimit error = false) as ->.
  { destruct (isRateLimit error) eqn:Hrl; [|reflexivity].
    apply isRateLimit_spec in Hrl as [Hs | (m & Hm & Hin)]; [congruence|].
    destruct (Hmsg m Hm Hin). }
  unfold orElse. destruct (JsError.message error) as [[|c m]|]; reflexivity.
Qed.

(** X5. When [sendMessageStream] rejects with a rate-limit error
    whose retry seconds are at most 2^53, where the numbers of the
    source are exact, the [retryAfter] of the body and the
    [Retry-After] header carry the same number: the header is its
    decimal text and parses back to it. The number is 60, or the
    value of the digits of the leftmost retry-delay match in the
    message. *)
Theorem retry_hint_is_consistent (messages : list ChatMessage) p q (error : JsError) :
  activeQuery messages p q ->
  api (chatHistory bot messages q) q.(ChatMessage.content) = Rejects error ->
  (error.(JsError.status) = Some 429%N \/
   exists m, error.(JsError.message) = Some m /\ Js.occursIn "429" m) ->
  (retrySeconds error <= 9007199254740992)%N ->
  let r := (POST encode bot api messages).(response) in
  exists n data header,
    r.(Response.status) = 429%N /\
    r.(Response.body) = JsonBody data /\
    data.(ErrorData.retryAfter) = Some n /\
    Page.get r.(Response.headers) "Retry-After" = Some header /\
    Js.parseInt header = n /\
    (n = 60%N \/
     exists m k ds, error.(JsError.message) = Some m /\
                    matchesAt m k ds /\
                    (forall j ds', j < k -> ~ matchesAt m j ds') /\
                    n = Js.parseInt ds).
Proof.
  intros Hact Hrej Hrl _ r. unfold r.
  rewrite (POST_rejected _ _ _ _ _ _ _ Hact Hrej). unfold onError.
  apply isRateLimit_spec in Hrl. rewrite Hrl.
  eexists (retrySeconds error), _, _.
  split; [reflexivity|]. split; [reflexivity|]. split; [reflexivity|].
  split; [reflexivity|]. split; [apply parseInt_toString|].
  unfold retrySeconds. destruct (JsError.message error) as [m|]; [|now left].
  destruct (retryDelayMatch m) as [ds|] eqn:Hmatch; [|now left].
  destruct (Js.truthy ds); [|now left].
  right. apply retryDelayMatch_Some in Hmatch as (k & Hk & Hfirst).
  exists m, k, ds. auto.
Qed.

(** X6. The verdict of the classifier has no part in what the handler
    does: with any other classifier in its place, [POST] gives the
    same response and makes the same calls. *)
Theorem classifier_is_not_enforced (other : string -> bool) (messages : list ChatMessage) :
  POST encode
       {| acknowledge := bot.(acknowledge);
          systemPromptText := bot.(systemPromptText);
          classifier := other |} api messages
  = POST encode bot api messages.
Proof.
  unfold POST, chatHistory, priming. destruct bot. reflexivity.
Qed.

End RouteExtras.

(** ** Further properties of the classifiers *)
Module ClassifierFacts.
Import JsFacts.

#[local] Arguments String.append !_ _ / : simpl nomatch.

Lemma toLowerCase_append (a b : string) :
  Js.toLowerCase (a +:+ b) = Js.toLowerCase a +:+ Js.toLowerCase b.
Proof. induction a as [|c a IH]; simpl; congruence. Qed.

Lemma lowerChar_idempotent (c : ascii) : Js.lowerChar (Js.lowerChar c) = Js.lowerChar c.
Proof. destruct c as [[] [] [] [] [] [] [] []]; reflexivity. Qed.

Lemma toLowerCase_idempotent (s : string) :
  Js.toLowerCase (Js.toLowerCase s) = Js.toLowerCase s.
Proof.
  induction s as [|c s IH]; simpl; [reflexivity|].
  now rewrite lowerChar_idempotent, IH.
Qed.

Lemma occursIn_context (k s pre post : string) :
  Js.occursIn k s -> Js.occursIn k (pre +:+ s +:+ post).
Proof.
  intros (a & b & ->). exists (pre +:+ a), (b +:+ post).
  now rewrite !append_assoc.
Qed.

Lemma someKeyword_context (keywords : list string) (pre text post : string) :
  someKeyword keywords text = true ->
  someKeyword keywords (pre +:+ text +:+ post) = true.
Proof.
  unfold someKeyword. rewrite !existsb_exists.
  intros (k & Hin & Hk). exists k. split; [exact Hin|].
  apply includes_spec. apply includes_spec in Hk.
  rewrite !toLowerCase_append. now apply occursIn_context.
Qed.

(** X7. A text that a classifier takes for in-domain stays in-domain
    with any text put before and after it: no word turns a match off. *)
Theorem in_domain_within_any_context (pre text post : string) :
  (isChallengeQuery text = true -> isChallengeQuery (pre +:+ text +:+ post) = true) /\
  (isLegalQuestion text = true -> isLegalQuestion (pre +:+ text +:+ post) = true).
Proof. split; apply someKeyword_context. Qed.

Lemma in_domain_within_any_context_witness :
  isLegalQuestion "tenant" = true /\
  isLegalQuestion ("Is my " +:+ "tenant" +:+ " a poet?") = true.
Proof.
  split; [reflexivity|].
  apply (proj2 (in_domain_within_any_context "Is my " "tenant" " a poet?")).
  reflexivity.
Defined.

(** X8. The classifiers do not see letter case: a text and its
    lower-cased form get the same verdict. *)
Theorem verdict_ignores_case (text : string) :
  isChallengeQuery (Js.toLowerCase text) = isChallengeQuery text /\
  isLegalQuestion (Js.toLowerCase text) = isLegalQuestion text.
Proof.
  unfold isChallengeQuery, isLegalQuestion, someKeyword.
  now rewrite toLowerCase_idempotent.
Qed.

End ClassifierFacts.

(** ** Further properties of the page *)
Module RunFacts.
Import Page PageFacts.

Lemma last_Forall {A} (P : A -> Prop) (l : list A) (d : A) :
  Forall P l -> P d -> P (List.last l d).
Proof.
  intros Hl Hd. destruct (last l) as [x|] eqn:E.
  - rewrite (last_default l d x E). rewrite Forall_forall in Hl.
    apply Hl. eapply last_Some_elem_of; eauto.
  - apply last_None in E. subst l. exact Hd.
Qed.

Lemma guard_open (st : State) (text : string) :
  ~ Js.blank text -> st.(isLoading) = false ->
  negb (Js.truthy (Js.trim text)) || st.(isLoading) = false.
Proof.
  intros Hblank ->. rewrite orb_false_r.
  destruct (Js.truthy (Js.trim text)) eqn:E; [reflexivity|].
  apply trim_truthy in E. tauto.
Qed.

End RunFacts.

Section RunExtras.
Import Gemini Route Spec Page PageFacts RunFacts Frame View.

#[local] Arguments String.append !_ _ / : simpl nomatch.

Context {Decoder : Type}.
Variable newDecoder : Decoder.
Variable decode : Decoder -> list Byte.byte -> Decoder * string.
Variable fetch : list ChatMessage -> JsError + Fetched.

Lemma readLoop_sameCells (assistantId : string) (chunks : list (list Byte.byte))
    (d : Decoder) (t : string) (st : State) :
  Forall (sameCells st) (readLoop decode assistantId chunks d t st).
Proof.
  revert d t st. induction chunks as [|value chunks IH]; intros d t st; cbn [readLoop].
  - constructor.
  - destruct (decode d value) as [d1 c1]. constructor.
    + repeat split.
    + eapply Forall_impl; [apply IH|]. intros s Hs. exact Hs.
Qed.

(** The [try] block leaves the input field and the loading flag as
    they are. *)
Lemma receive_keeps_input (st : State) (assistantId : string)
    (fetched : JsError + Fetched) :
  Forall (fun s => s.(input) = st.(input) /\ s.(isLoading) = st.(isLoading))
         (receive newDecoder decode st assistantId fetched).1.
Proof.
  unfold receive. destruct fetched as [err|response]; [constructor|].
  destruct (negb (ok response)).
  - destruct (Fetched.json response) as [err|errorData]; [constructor|].
    destruct (_ && _); repeat constructor.
  - destruct (Js.includes _ _); [|constructor].
    destruct (Fetched.body response) as [stream|]; cbn [fst].
    + constructor; [split; reflexivity|].
      eapply Forall_impl; [apply readLoop_sameCells|].
      intros s (Hi & Hl & _). split; [exact Hi | exact Hl].
    + repeat constructor.
Qed.

(** X9. [sendMessage] does nothing exactly when the text is blank or
    a request is in flight; it does not look at the countdown. In
    every other call it sends one request, the transcript with the
    new user message at its end, and when the call has settled the
    loading flag is off and the input field is empty, whatever the
    outcome of the request. *)
Theorem sendMessage_goes_through (st : State) (userId assistantId text : string) :
  let run := sendMessage newDecoder decode fetch st userId assistantId text in
  (run.(requests) = [] <-> Js.blank text \/ st.(isLoading) = true) /\
  (~ Js.blank text -> st.(isLoading) = false ->
   run.(requests) =
     [ toWire <$> st.(messages) ++ [ {| id := userId; role := user; content := text |} ] ] /\
   (settled st run).(isLoading) = false /\
   (settled st run).(input) = "").
Proof.
  intros run. split.
  - unfold run, sendMessage. split.
    + destruct (negb (Js.truthy (Js.trim text)) || isLoading st) eqn:G.
      * intros _. apply orb_true_iff in G as [G|G]; [left | right; exact G].
        apply trim_truthy. now destruct (Js.truthy (Js.trim text)).
      * destruct (receive _ _ _ _ _). discriminate.
    + intros Hguard.
      assert (negb (Js.truthy (Js.trim text)) || isLoading st = true) as ->; [|reflexivity].
      apply orb_true_iff. destruct Hguard as [Hb|Hl]; [left | right; exact Hl].
      apply trim_truthy in Hb. now rewrite Hb.
  - intros Hblank Hready. unfold run, sendMessage.
    rewrite (guard_open st text Hblank Hready).
    set (userMessage := {| id := userId; role := user; content := text |}).
    set (st4 := setError None _).
    pose proof (receive_keeps_input st4 assistantId
                  (fetch (toWire <$> messages st ++ [userMessage]))) as Hkeep.
    destruct (receive _ _ _ _ _) as [received thrown]. cbn [fst] in Hkeep.
    split; [reflexivity|]. unfold settled. cbn [renders].
    rewrite !app_assoc, last_last. split; [reflexivity|].
    cbn [setIsLoading input].
    assert (input (List.last received st4) = "") as H5.
    { apply (last_Forall (fun s => s.(input) = "")); [|reflexivity].
      eapply Forall_impl; [exact Hkeep|]. intros s [Hi _]. exact Hi. }
    apply (last_Forall (fun s => s.(input) = "")); [|exact H5].
    destruct thrown as [err|]; [destruct (negb _)|]; repeat constructor; exact H5.
Qed.

End RunExtras.

Section TranscriptExtras.
Import Gemini Route Spec Page PageFacts RunFacts Frame View.

Context {Decoder : Type}.
Variable newDecoder : Decoder.
Variable decode : Decoder -> list Byte.byte -> Decoder * string.
Variable fetch : list ChatMessage -> JsError + Fetched.

Lemma withContent_others (assistantId t : string) (base : list Message) :
  Forall (fun m => m.(id) <> assistantId) base ->
  withContent assistantId t <$> base = base.
Proof.
  induction 1 as [|m base Hm _ IH]; [reflexivity|].
  rewrite fmap_cons, IH. unfold withContent. now rewrite decide_False.
Qed.

Lemma readLoop_extends (assistantId : string) (base : list Message)
    (chunks : list (list Byte.byte)) (d : Decoder) (t c : string) (st : State) :
  Forall (fun m => m.(id) <> assistantId) base ->
  st.(messages) = base ++ [ {| id := assistantId; role := assistant; content := c |} ] ->
  Forall (fun s => exists c', s.(messages) =
            base ++ [ {| id := assistantId; role := assistant; content := c' |} ])
         (readLoop decode assistantId chunks d t st).
Proof.
  intros Hbase. revert d t c st.
  induction chunks as [|value chunks IH]; intros d t c st Hst; cbn [readLoop].
  - constructor.
  - destruct (decode d value) as [d1 c1].
    assert (messages (setMessages (fmap (withContent assistantId (t +:+ c1))) st)
            = base ++ [ {| id := assistantId; role := assistant; content := t +:+ c1 |} ])
      as Hnext.
    { cbn [setMessages messages]. rewrite Hst, fmap_app, withContent_others by trivial.
      cbn [fmap list_fmap]. unfold withContent. now rewrite decide_True. }
    constructor; [eauto|]. eapply IH. exact Hnext.
Qed.

Lemma receive_extends (st : State) (assistantId : string) (fetched : JsError + Fetched) :
  Forall (fun m => m.(id) <> assistantId) st.(messages) ->
  Forall (fun s => s.(messages) = st.(messages) \/
                   exists c, s.(messages) = st.(messages) ++
                     [ {| id := assistantId; role := assistant; content := c |} ])
         (receive newDecoder decode st assistantId fetched).1.
Proof.
  intros Hfresh. unfold receive. destruct fetched as [err|response]; [constructor|].
  destruct (negb (ok response)).
  - destruct (Fetched.json response) as [err|errorData]; [constructor|].
    destruct (_ && _); repeat constructor.
  - destruct (Js.includes _ _); [|constructor].
    destruct (Fetched.body response) as [stream|]; cbn [fst].
    + constructor; [cbv beta; right; eexists; reflexivity|].
      eapply Forall_impl; [eapply (readLoop_extends _ _ _ _ _ "" _ Hfresh); reflexivity|].
      intros s Hs. right. exact Hs.
    + constructor; [cbv beta; right; eexists; reflexivity | constructor].
Qed.

(** X10. With an id for the assistant message that no message of the
    transcript has, [sendMessage] changes and removes no earlier
    message: in every state it sets, the transcript is the old one
    with the user message behind it, and behind that at most the one
    assistant message. *)
Theorem transcript_only_grows (st : State) (userId assistantId text : string) :
  ~ Js.blank text -> st.(isLoading) = false ->
  assistantId ∉ (id <$> st.(messages)) -> assistantId <> userId ->
  let userMessage := {| id := userId; role := user; content := text |} in
  let run := sendMessage newDecoder decode fetch st userId assistantId text in
  Forall (fun s => extends st.(messages) userMessage assistantId s.(messages))
         run.(renders) /\
  extends st.(messages) userMessage assistantId (settled st run).(messages).
Proof.
  intros Hblank Hready Hfresh Hne userMessage run.
  unfold settled, run, sendMessage. rewrite (guard_open st text Hblank Hready).
  fold userMessage. set (st4 := setError None _).
  assert (Forall (fun m => m.(id) <> assistantId) st4.(messages)) as Hfresh4.
  { unfold st4. cbn [setError setIsLoading setInput setMessages messages].
    apply Forall_app. split; [|repeat constructor; simpl; congruence].
    apply Forall_forall. intros m Hm Heq. apply Hfresh.
    apply list_elem_of_fmap. eauto. }
  pose proof (receive_extends st4 assistantId
                (fetch (toWire <$> messages st ++ [userMessage])) Hfresh4) as Hrec.
  destruct (receive _ _ _ _ _) as [received thrown]. cbn [fst] in Hrec.
  cbn [renders].
  assert (Forall (fun s => extends st.(messages) userMessage assistantId s.(messages))
                 received) as Hreceived.
  { eapply Forall_impl; [exact Hrec|]. intros s [Hs | [c Hs]]; rewrite Hs.
    - left. reflexivity.
    - right. exists c. unfold st4.
      cbn [setError setIsLoading setInput setMessages messages].
      now rewrite <- app_assoc. }
  assert (extends st.(messages) userMessage assistantId
            (List.last received st4).(messages)) as H5.
  { apply (last_Forall (fun s => extends _ _ _ s.(messages))); [exact Hreceived|].
    left. reflexivity. }
  set (caught := match thrown with Some _ => _ | None => _ end).
  assert (Forall (fun s => extends st.(messages) userMessage assistantId s.(messages))
                 caught) as Hcaught.
  { unfold caught. destruct thrown as [err|]; [destruct (negb _)|];
      [apply Forall_cons_2; [exact H5 | constructor] | constructor | constructor]. }
  assert (extends st.(messages) userMessage assistantId
            (setIsLoading false (List.last caught (List.last received st4))).(messages))
    as H6.
  { cbn [setIsLoading messages].
    apply (last_Forall (fun s => extends _ _ _ s.(messages))); [exact Hcaught | exact H5]. }
  split.
  - repeat (apply Forall_cons_2; [left; reflexivity|]).
    apply Forall_app_2; [exact Hreceived|].
    apply Forall_app_2; [exact Hcaught|].
    apply Forall_cons_2; [exact H6 | constructor].
  - rewrite !app_assoc, last_last. exact H6.
Qed.

End TranscriptExtras.

(** ** The page and the route together *)
Module WireFacts.
Import Gemini Route Spec Page Frame Conversation.

(** The request of the page ends with the new user message, which is
    its active query. *)
Lemma request_active (ms : list Message) (userId text : string) :
  let userMessage := {| id := userId; role := user; content := text |} in
  activeQuery (toWire <$> ms ++ [userMessage]) (length ms) (toWire userMessage).
Proof.
  intros userMessage. rewrite fmap_app. split; [|split].
  - apply list_lookup_middle. now rewrite length_fmap.
  - reflexivity.
  - intros j m Hj Hm. apply lookup_lt_Some in Hm.
    rewrite length_app, length_fmap in Hm. simpl in Hm. lia.
Qed.

Lemma toWire_answered (xs : list (Message * Message)) :
  toWire <$> flat_map (fun x => [ x.1; x.2 ]) xs =
  flat_map turnMessages ((fun x => (toWire x.1, toWire x.2)) <$> xs).
Proof.
  induction xs as [|x xs IH]; [reflexivity|].
  cbn [flat_map app]. rewrite !fmap_cons, IH. reflexivity.
Qed.

Lemma answered_entries (xs : list (Message * Message)) :
  flat_map turnEntries ((fun x => (toWire x.1, toWire x.2)) <$> xs) =
  flat_map answeredEntries xs.
Proof.
  induction xs as [|x xs IH]; [reflexivity|].
  rewrite fmap_cons. cbn [flat_map]. now rewrite IH.
Qed.

Lemma answered_exchanges (xs : list (Message * Message)) :
  Forall isAnswered xs ->
  Forall isExchange ((fun x => (toWire x.1, toWire x.2)) <$> xs).
Proof.
  induction 1 as [|x xs [Hu Ha] _ IH]; [constructor|].
  rewrite fmap_cons. constructor; [|exact IH].
  split; simpl; [now rewrite Hu | now rewrite Ha].
Qed.

End WireFacts.

Section EndToEnd.
Import Gemini Route Spec Page PageFacts RunFacts Frame View Conversation.
Import JsFacts RouteFacts ErrorFacts ErrorShape HistoryShape WireFacts.

Context {Decoder : Type}.
Variable encode : string -> list Byte.byte.
Variable newDecoder : Decoder.
Variable decode : Decoder -> list Byte.byte -> Decoder * string.
Variable bot : Bot.
Variable api : list Content -> string -> Upstream.
Variable fetch : list ChatMessage -> JsError + Fetched.

(** X11. The model is given the whole conversation: when the page
    shows a greeting and answered questions, all messages with
    different ids, the request of [sendMessage] makes the route hand
    the SDK the priming followed by the entries of every answered
    question in order, and send the new text. *)
Theorem conversation_context_is_forwarded (st : State) (greeting : Message)
    (answered : list (Message * Message)) (userId assistantId text : string) :
  ~ Js.blank text -> st.(isLoading) = false ->
  st.(messages) = shownTranscript greeting answered ->
  greeting.(role) = assistant ->
  Forall isAnswered answered ->
  let userMessage := {| id := userId; role := user; content := text |} in
  NoDup (id <$> st.(messages) ++ [userMessage]) ->
  exists request,
    (sendMessage newDecoder decode fetch st userId assistantId text).(requests)
      = [ request ] /\
    (POST encode bot api request).(calls) =
      [ StartChat (priming bot ++ flat_map answeredEntries answered);
        SendMessageStream text ].
Proof.
  intros Hblank Hready Hshape Hg Hxs userMessage Hnd.
  exists (toWire <$> st.(messages) ++ [userMessage]). split.
  - unfold sendMessage. rewrite (guard_open st text Hblank Hready).
    destruct (receive _ _ _ _ _). reflexivity.
  - assert (toWire <$> st.(messages) ++ [userMessage] =
            transcript (toWire greeting)
              ((fun x => (toWire x.1, toWire x.2)) <$> answered)
              (toWire userMessage)) as Hreq.
    { rewrite Hshape. unfold shownTranscript, transcript.
      rewrite fmap_app, fmap_cons, toWire_answered. reflexivity. }
    rewrite Hreq, transcript_calls, answered_entries; trivial.
    + rewrite <- Hreq, <- list_fmap_compose.
      assert (ChatMessage.id ∘ toWire = id) as -> by reflexivity. exact Hnd.
    + simpl. now rewrite Hg.
    + now apply answered_exchanges.
Qed.

(** The state in which the request goes out. *)
Lemma settled_ready (st : State) (userId assistantId text : string)
    (received : list State) (thrown : option JsError) :
  ~ Js.blank text -> st.(isLoading) = false ->
  let userMessage := {| id := userId; role := user; content := text |} in
  let st4 := setError None (setIsLoading true (setInput ""
               (setMessages (fun prev => prev ++ [userMessage]) st))) in
  receive newDecoder decode st4 assistantId
          (fetch (toWire <$> st.(messages) ++ [userMessage])) = (received, thrown) ->
  settled st (sendMessage newDecoder decode fetch st userId assistantId text) =
    let st5 := List.last received st4 in
    setIsLoading false
      (List.last
         match thrown with
         | Some err =>
             if negb (truthyNumber st.(retryTimer))
             then [ setError (Some (orElse err.(JsError.message)
                                      "Failed to communicate with the AI")) st5 ]
             else []
         | None => []
         end st5).
Proof.
  intros Hblank Hready userMessage st4 Hrec.
  unfold settled, sendMessage. rewrite (guard_open st text Hblank Hready).
  fold userMessage. fold st4. rewrite Hrec. cbn [renders].
  rewrite !app_assoc, last_last. reflexivity.
Qed.

(** X12. When the upstream rejects the request of the page with a
    rate-limit error and the retry delay is not zero and at most
    2^53, where the numbers of the source are exact and written in
    decimal digits, the page ends with the countdown set to that
    delay, the message of the route as its error, the loading flag
    off, the transcript extended by the user message only, and both
    the input field and the submit button disabled. *)
Theorem rate_limit_starts_countdown (st : State) (userId assistantId text : string)
    (error : JsError) (n : N) (fetched : Fetched) :
  ~ Js.blank text -> st.(isLoading) = false ->
  let userMessage := {| id := userId; role := user; content := text |} in
  let request := toWire <$> st.(messages) ++ [userMessage] in
  api (chatHistory bot request (toWire userMessage)) text = Rejects error ->
  (error.(JsError.status) = Some 429%N \/
   exists m, error.(JsError.message) = Some m /\ Js.occursIn "429" m) ->
  retrySeconds error = n -> n <> 0%N -> (n <= 9007199254740992)%N ->
  fetch request = inr fetched ->
  delivers (POST encode bot api request).(response) fetched ->
  let s := settled st (sendMessage newDecoder decode fetch st userId assistantId text) in
  s.(retryTimer) = Some n /\
  s.(Page.error) =
    Some ("Google AI API rate limit reached. Please try again in " +:+ Js.toString n
          +:+ " seconds. The free tier of Gemini API has strict rate limits.") /\
  s.(isLoading) = false /\
  s.(messages) = st.(messages) ++ [userMessage] /\
  inputDisabled s = true /\ submitDisabled s = true.
Proof.
  intros Hblank Hready userMessage request Hapi Hrl Hn Hn0 _ Hfetch Hdel s.
  pose proof (request_active st.(messages) userId text) as Hact.
  rewrite (POST_rejected encode bot api request _ _ error Hact Hapi) in Hdel.
  unfold onError in Hdel. apply isRateLimit_spec in Hrl. rewrite Hrl, Hn in Hdel.
  destruct Hdel as (Hstatus & _ & Hjson). cbn [Response.status Response.body] in *.
  assert (truthyNumber (Some n) = true) as Htruthy.
  { unfold truthyNumber. apply negb_true_iff. now apply N.eqb_neq. }
  unfold s. erewrite settled_ready; [|assumption|assumption|].
  2:{ fold userMessage. fold request. rewrite Hfetch. unfold receive, ok.
      rewrite Hstatus, Hjson. cbn [ErrorData.retryAfter ErrorData.message].
      rewrite Htruthy. reflexivity. }
  cbv zeta. cbn [List.last].
  unfold inputDisabled, submitDisabled.
  destruct (negb (truthyNumber (retryTimer st)));
    cbn [List.last setIsLoading setError setRetryTimer setInput setMessages
         retryTimer Page.error isLoading messages input default from_option];
    change (Datatypes.id n) with n;
    rewrite Htruthy, ?orb_true_r; repeat split; reflexivity.
Qed.

(** X13. A rate-limit error whose retry delay is zero starts no
    countdown: the page shows the error text of the body, keeps its
    timer as it was, and leaves the input field enabled. *)
Theorem zero_delay_starts_no_countdown (st : State) (userId assistantId text : string)
    (error : JsError) (fetched : Fetched) :
  ~ Js.blank text -> st.(isLoading) = false ->
  truthyNumber st.(retryTimer) = false ->
  let userMessage := {| id := userId; role := user; content := text |} in
  let request := toWire <$> st.(messages) ++ [userMessage] in
  api (chatHistory bot request (toWire userMessage)) text = Rejects error ->
  (error.(JsError.status) = Some 429%N \/
   exists m, error.(JsError.message) = Some m /\ Js.occursIn "429" m) ->
  retrySeconds error = 0%N ->
  fetch request = inr fetched ->
  delivers (POST encode bot api request).(response) fetched ->
  let s := settled st (sendMessage newDecoder decode fetch st userId assistantId text) in
  s.(retryTimer) = st.(retryTimer) /\
  s.(Page.error) = Some "Rate limit exceeded" /\
  s.(isLoading) = false /\
  s.(messages) = st.(messages) ++ [userMessage] /\
  inputDisabled s = false.
Proof.
  intros Hblank Hready Htimer userMessage request Hapi Hrl Hn Hfetch Hdel s.
  pose proof (request_active st.(messages) userId text) as Hact.
  rewrite (POST_rejected encode bot api request _ _ error Hact Hapi) in Hdel.
  unfold onError in Hdel. apply isRateLimit_spec in Hrl. rewrite Hrl, Hn in Hdel.
  destruct Hdel as (Hstatus & _ & Hjson). cbn [Response.status Response.body] in *.
  unfold s. erewrite settled_ready; [|assumption|assumption|].
  2:{ fold userMessage. fold request. rewrite Hfetch. unfold receive, ok.
      rewrite Hstatus, Hjson. reflexivity. }
  cbv zeta. unfold inputDisabled. rewrite Htimer.
  cbn [negb List.last setIsLoading setError setRetryTimer setInput setMessages
       retryTimer Page.error isLoading messages input].
  rewrite Htimer. repeat split; reflexivity.
Qed.

(** X14. When the upstream rejects the request of the page with an
    error that is no rate limit, the page ends with the text of that
    error, or the fixed text of the route when the error has none, as
    its error, with no assistant message and the timer as it was. *)
Theorem upstream_error_is_shown (st : State) (userId assistantId text : string)
    (error : JsError) (fetched : Fetched) :
  ~ Js.blank text -> st.(isLoading) = false ->
  truthyNumber st.(retryTimer) = false ->
  let userMessage := {| id := userId; role := user; content := text |} in
  let request := toWire <$> st.(messages) ++ [userMessage] in
  api (chatHistory bot request (toWire userMessage)) text = Rejects error ->
  error.(JsError.status) <> Some 429%N ->
  (forall m, error.(JsError.message) = Some m -> ~ Js.occursIn "429" m) ->
  fetch request = inr fetched ->
  delivers (POST encode bot api request).(response) fetched ->
  let s := settled st (sendMessage newDecoder decode fetch st userId assistantId text) in
  s.(Page.error) =
    Some (match error.(JsError.message) with
          | Some (String c m) => String c m
          | _ => "Failed to process chat request"
          end) /\
  s.(retryTimer) = st.(retryTimer) /\
  s.(isLoading) = false /\
  s.(messages) = st.(messages) ++ [userMessage].
Proof.
  intros Hblank Hready Htimer userMessage request Hapi Hstatus429 Hmsg Hfetch Hdel s.
  pose proof (request_active st.(messages) userId text) as Hact.
  rewrite (POST_rejected encode bot api request _ _ error Hact Hapi) in Hdel.
  unfold onError in Hdel.
  assert (isRateLimit error = false) as Hrl.
  { destruct (isRateLimit error) eqn:Hrl; [|reflexivity].
    apply isRateLimit_spec in Hrl as [Hs | (m & Hm & Hin)]; [congruence|].
    destruct (Hmsg m Hm Hin). }
  rewrite Hrl in Hdel.
  destruct Hdel as (Hstatus & _ & Hjson). cbn [Response.status Response.body] in *.
  unfold s. erewrite settled_ready; [|assumption|assumption|].
  2:{ fold userMessage. fold request. rewrite Hfetch. unfold receive, ok.
      rewrite Hstatus, Hjson. reflexivity. }
  cbv zeta. rewrite Htimer.
  cbn [negb List.last setIsLoading setError setRetryTimer setInput setMessages
       retryTimer Page.error isLoading messages input JsError.message Error
       ErrorData.error].
  split; [|repeat split; reflexivity].
  unfold orElse. destruct (JsError.message error) as [[|c m]|]; reflexivity.
Qed.

End EndToEnd.

Section StreamExtras.
Import Gemini Route Spec Page PageFacts RunFacts Frame View Conversation.
Import JsFacts RouteFacts ErrorFacts WireFacts.

Context {Decoder : Type}.
Variable encode : string -> list Byte.byte.
Variable newDecoder : Decoder.
Variable decode : Decoder -> list Byte.byte -> Decoder * string.
Variable bot : Bot.
Variable api : list Content -> string -> Upstream.
Variable fetch : list ChatMessage -> JsError + Fetched.

(** The decoder goes byte by byte. *)
Hypothesis decode_nil : forall d, decode d [] = (d, "").
Hypothesis decode_app : forall d a b,
  decode d (a ++ b) =
  let '(d1, s1) := decode d a in
  let '(d2, s2) := decode d1 b in
  (d2, s1 +:+ s2).

(** The last message after the read loop has read the chunks
    [chunks]: its content is what a new decoder gives for their
    bytes as a whole. *)
Lemma loop_last_message (assistantId : string) (chunks : list (list Byte.byte))
    (st5 d : State) :
  last st5.(messages) = Some {| id := assistantId; role := assistant; content := "" |} ->
  last (List.last (st5 :: readLoop decode assistantId chunks newDecoder "" st5) d).(messages)
  = Some {| id := assistantId; role := assistant;
            content := snd (decode newDecoder (concat chunks)) |}.
Proof.
  intros H5.
  assert ((fun s => last s.(messages)) <$>
            (st5 :: readLoop decode assistantId chunks newDecoder "" st5) =
          (fun c => Some {| id := assistantId; role := assistant; content := c |})
            <$> ("" :: responseTexts decode chunks newDecoder "")) as Hloop.
  { rewrite !fmap_cons, H5. f_equal.
    apply (readLoop_last decode assistantId _ _ _ _ _ H5 eq_refl). }
  pose proof (f_equal last Hloop) as Hl.
  rewrite !fmap_last, (responseTexts_last decode decode_nil decode_app) in Hl.
  cbn [fmap option_fmap option_map] in Hl.
  destruct (last (st5 :: readLoop _ _ _ _ _ _)) as [sN|] eqn:EN; [|discriminate].
  rewrite (last_default _ d sN EN). rewrite append_nil_l in Hl.
  injection Hl as Hl. exact Hl.
Qed.

(** The [try] block on a [text/plain] response with a body. *)
Lemma receive_stream (st : State) (assistantId : string) (fetched : Fetched)
    (stream : ByteStream) :
  fetched.(Fetched.status) = 200%N ->
  get fetched.(Fetched.headers) "Content-Type" = Some "text/plain; charset=utf-8" ->
  fetched.(Fetched.body) = Some stream ->
  receive newDecoder decode st assistantId (inr fetched) =
    let st1 := setMessages
                 (fun prev => prev ++ [ {| id := assistantId; role := assistant;
                                           content := "" |} ]) st in
    (st1 :: readLoop decode assistantId stream.(queue) newDecoder "" st1,
     match stream.(ending) with
     | Closed => None
     | Errored err => Some err
     end).
Proof.
  intros Hstatus Hheaders Hbody. unfold receive, ok.
  rewrite Hstatus, Hheaders, Hbody. reflexivity.
Qed.

(** X15. After a reply that streamed to its end, with an id for the
    assistant message that no other message has, the transcript is
    the old one followed by the user message and the assistant
    message; its content is what the decoder gives for the bytes of
    the fragments that are not empty, taken as a whole, however the
    network cut them into chunks. No error is set and the loading
    flag is off. A transcript made of a greeting and answered
    questions is again of that form, with the new exchange at its
    end. *)
Theorem exchange_is_recorded (st : State) (userId assistantId text : string)
    (fragments : list string) (fetched : Fetched) :
  ~ Js.blank text -> st.(isLoading) = false ->
  assistantId ∉ (id <$> st.(messages)) -> assistantId <> userId ->
  let userMessage := {| id := userId; role := user; content := text |} in
  let relayed := concat (encode <$> filter (fun t => t <> "") fragments) in
  let reply := {| id := assistantId; role := assistant;
                  content := snd (decode newDecoder relayed) |} in
  let request := toWire <$> st.(messages) ++ [userMessage] in
  api (chatHistory bot request (toWire userMessage)) text = Streams fragments None ->
  fetch request = inr fetched ->
  delivers (POST encode bot api request).(response) fetched ->
  let s := settled st (sendMessage newDecoder decode fetch st userId assistantId text) in
  s.(messages) = st.(messages) ++ [ userMessage; reply ] /\
  s.(Page.error) = None /\
  s.(isLoading) = false /\
  (forall greeting answered,
     st.(messages) = shownTranscript greeting answered ->
     Forall isAnswered answered ->
     s.(messages) = shownTranscript greeting (answered ++ [ (userMessage, reply) ]) /\
     Forall isAnswered (answered ++ [ (userMessage, reply) ])).
Proof.
  intros Hblank Hready Hfresh Hne userMessage relayed reply request Hapi Hfetch Hdel s.
  pose proof (request_active st.(messages) userId text) as Hact.
  rewrite (POST_streamed encode bot api request _ _ fragments None Hact Hapi) in Hdel.
  destruct Hdel as (Hstatus & Hheaders & stream & Hbody & Hend & Hbytes).
  cbn [Response.status Response.headers Response.body relay queue ending] in *.
  specialize (Hheaders "Content-Type" _ eq_refl).
  assert (stream.(ending) = Closed) as Hclosed.
  { destruct (ending stream); [reflexivity | destruct Hend]. }
  rewrite fold_forward, app_nil_l in Hbytes. fold relayed in Hbytes.
  set (st4 := setError None (setIsLoading true (setInput ""
                (setMessages (fun prev => prev ++ [userMessage]) st)))).
  set (st5 := setMessages
                (fun prev => prev ++ [ {| id := assistantId; role := assistant;
                                          content := "" |} ]) st4).
  set (loop := st5 :: readLoop decode assistantId stream.(queue) newDecoder "" st5).
  assert (s = setIsLoading false (List.last loop st4)) as Hs.
  { unfold s. erewrite settled_ready; [|assumption|assumption|].
    2:{ fold userMessage. fold request. rewrite Hfetch.
        rewrite (receive_stream _ _ _ stream Hstatus Hheaders Hbody), Hclosed.
        reflexivity. }
    reflexivity. }
  assert (Forall (fun s' => s'.(Page.error) = None /\ exists c,
                    s'.(messages) = (st.(messages) ++ [userMessage]) ++
                      [ {| id := assistantId; role := assistant; content := c |} ])
                 loop) as Hloop.
  { unfold loop. constructor.
    - split; [reflexivity|]. exists "". reflexivity.
    - assert (Forall (fun m => m.(id) <> assistantId) (st.(messages) ++ [userMessage]))
        as Hbase.
      { apply Forall_app. split; [|repeat constructor; simpl; congruence].
        apply Forall_forall. intros m Hm Heq. apply Hfresh.
        apply list_elem_of_fmap. eauto. }
      pose proof (readLoop_extends decode assistantId _ stream.(queue) newDecoder
                    "" "" st5 Hbase eq_refl) as Hext.
      pose proof (readLoop_sameCells decode assistantId stream.(queue) newDecoder
                    "" st5) as Hsame.
      rewrite Forall_forall in Hext, Hsame. apply Forall_forall. intros s' Hs'.
      split; [|now apply Hext].
      destruct (Hsame s' Hs') as (_ & _ & He & _). exact He. }
  assert (last (List.last loop st4).(messages) = Some reply) as Hlast.
  { unfold reply. rewrite <- Hbytes. apply loop_last_message. apply last_snoc. }
  assert (loop <> []) as Hnonempty by discriminate.
  apply last_is_Some in Hnonempty as [sN HsN].
  rewrite (last_default loop st4 sN HsN) in Hs, Hlast.
  rewrite Forall_forall in Hloop.
  destruct (Hloop sN (last_Some_elem_of _ _ HsN)) as (Herr & c & Hc).
  rewrite Hc, last_snoc in Hlast. injection Hlast as Hcontent.
  assert (s.(messages) = st.(messages) ++ [userMessage; reply]) as Hmessages.
  { rewrite Hs. cbn [setIsLoading messages]. rewrite Hc, <- app_assoc.
    unfold reply. rewrite <- Hcontent. reflexivity. }
  split; [exact Hmessages|]. split; [now rewrite Hs|]. split; [now rewrite Hs|].
  intros greeting answered Hshape Hanswered. split.
  - rewrite Hmessages, Hshape. unfold shownTranscript.
    rewrite flat_map_app. cbn [flat_map]. rewrite app_nil_r.
    reflexivity.
  - apply Forall_app. split; [exact Hanswered|]. repeat constructor.
Qed.

(** X16. When the upstream fails in the middle of the stream, what
    the page has read stays: the reader meets a failure after bytes
    that the relay had queued, in their order, and the assistant
    message ends with what the decoder gives for those bytes as its
    content; the error is the text of the failure the reader met, or
    a fixed text when it has none, and the loading flag is off. *)
Theorem partial_reply_is_kept (st : State) (userId assistantId text : string)
    (fragments : list string) (failure : JsError) (fetched : Fetched) :
  ~ Js.blank text -> st.(isLoading) = false ->
  truthyNumber st.(retryTimer) = false ->
  let userMessage := {| id := userId; role := user; content := text |} in
  let relayed := concat (encode <$> filter (fun t => t <> "") fragments) in
  let request := toWire <$> st.(messages) ++ [userMessage] in
  api (chatHistory bot request (toWire userMessage)) text
    = Streams fragments (Some failure) ->
  fetch request = inr fetched ->
  delivers (POST encode bot api request).(response) fetched ->
  let s := settled st (sendMessage newDecoder decode fetch st userId assistantId text) in
  (exists stream met,
     fetched.(Fetched.body) = Some stream /\ stream.(ending) = Errored met /\
     concat stream.(queue) `prefix_of` relayed /\
     last s.(messages) =
       Some {| id := assistantId; role := assistant;
               content := snd (decode newDecoder (concat stream.(queue))) |} /\
     s.(Page.error) =
       Some (match met.(JsError.message) with
             | Some (String c m) => String c m
             | _ => "Failed to communicate with the AI"
             end)) /\
  s.(isLoading) = false.
Proof.
  intros Hblank Hready Htimer userMessage relayed request Hapi Hfetch Hdel s.
  pose proof (request_active st.(messages) userId text) as Hact.
  rewrite (POST_streamed encode bot api request _ _ fragments (Some failure) Hact Hapi)
    in Hdel.
  destruct Hdel as (Hstatus & Hheaders & stream & Hbody & Hend & Hbytes).
  cbn [Response.status Response.headers Response.body relay queue ending] in *.
  specialize (Hheaders "Content-Type" _ eq_refl).
  destruct (ending stream) as [|met] eqn:Hmet; [destruct Hend|].
  rewrite fold_forward, app_nil_l in Hbytes. fold relayed in Hbytes.
  set (st4 := setError None (setIsLoading true (setInput ""
                (setMessages (fun prev => prev ++ [userMessage]) st)))).
  set (st5 := setMessages
                (fun prev => prev ++ [ {| id := assistantId; role := assistant;
                                          content := "" |} ]) st4).
  set (loop := st5 :: readLoop decode assistantId stream.(queue) newDecoder "" st5).
  assert (s = setIsLoading false
                (setError (Some (orElse met.(JsError.message)
                                   "Failed to communicate with the AI"))
                          (List.last loop st4))) as Hs.
  { unfold s. erewrite settled_ready; [|assumption|assumption|].
    2:{ fold userMessage. fold request. rewrite Hfetch.
        rewrite (receive_stream _ _ _ stream Hstatus Hheaders Hbody), Hmet.
        reflexivity. }
    cbv zeta. rewrite Htimer. reflexivity. }
  split; [|now rewrite Hs].
  exists stream, met. split; [exact Hbody|]. split; [exact Hmet|].
  split; [exact Hbytes|]. split.
  - rewrite Hs. cbn [setIsLoading setError messages].
    apply loop_last_message. apply last_snoc.
  - rewrite Hs. cbn [setIsLoading setError Page.error]. f_equal.
    unfold orElse. destruct (JsError.message met) as [[|c m]|]; reflexivity.
Qed.

End StreamExtras.

(** ** The countdown and the controls *)
Module ViewFacts.
Import Page PageFacts RunFacts View JsFacts.

Lemma second_counting (st : State) (m : N) :
  st.(retryTimer) = Some m -> (1 < m)%N ->
  second st = setRetryTimer (Some (m - 1)%N) st.
Proof.
  intros Ht Hm. unfold second, intervalSet, tick. rewrite Ht.
  assert (truthyNumber (Some m) = true) as ->.
  { unfold truthyNumber. apply negb_true_iff, N.eqb_neq. lia. }
  assert ((0 <? m)%N = true) as -> by (apply N.ltb_lt; lia).
  assert ((1 <? m)%N = true) as -> by (apply N.ltb_lt; lia).
  reflexivity.
Qed.

Lemma second_last (st : State) :
  st.(retryTimer) = Some 1%N ->
  second st = setRetryTimer None (setError None st).
Proof. intros Ht. unfold second, intervalSet, tick. rewrite Ht. reflexivity. Qed.

Lemma second_idle (st : State) : st.(retryTimer) = None -> second st = st.
Proof. intros Ht. unfold second, intervalSet. rewrite Ht. reflexivity. Qed.

(** X17. A countdown of [n] seconds, [n] at most 2^53 so that the
    source counts exactly, shows [n - k] after [k] seconds and keeps
    the error and the input field disabled until then; after [n]
    seconds the timer and the error are cleared and stay so, and the
    input field is enabled unless a request is in flight. The
    transcript, the input and the loading flag are not touched. *)
Theorem countdown_runs_down (st : State) (n : N) (k : nat) :
  st.(retryTimer) = Some n -> n <> 0%N -> (n <= 9007199254740992)%N ->
  let s := elapse k st in
  ((N.of_nat k < n)%N ->
   s.(retryTimer) = Some (n - N.of_nat k)%N /\ s.(error) = st.(error) /\
   inputDisabled s = true) /\
  ((n <= N.of_nat k)%N ->
   s.(retryTimer) = None /\ s.(error) = None /\ inputDisabled s = st.(isLoading)) /\
  s.(messages) = st.(messages) /\ s.(input) = st.(input) /\
  s.(isLoading) = st.(isLoading).
Proof.
  intros Ht Hn _. induction k as [|k IH]; cbn zeta.
  - change (elapse 0 st) with st. split; [|split].
    + intros _. rewrite N.sub_0_r. split; [exact Ht|]. split; [reflexivity|].
      unfold inputDisabled. rewrite Ht. unfold truthyNumber.
      rewrite (proj2 (N.eqb_neq n 0) Hn). apply orb_true_r.
    + intros Hle. simpl in Hle. lia.
    + repeat split.
  - cbn zeta in IH. destruct IH as (Hbefore & Hafter & Hm & Hi & Hl).
    change (elapse (S k) st) with (second (elapse k st)).
    set (s := elapse k st) in *.
    destruct (N.lt_ge_cases (N.of_nat k) n) as [Hlt|Hge].
    + destruct (Hbefore Hlt) as (Hs & He & _).
      destruct (N.eq_dec (n - N.of_nat k)%N 1%N) as [Hone|Hmore].
      * rewrite Hone in Hs. rewrite (second_last s Hs).
        cbn [setRetryTimer setError retryTimer error messages input isLoading].
        split; [intros; lia|]. split; [|auto].
        intros _. split; [reflexivity|]. split; [reflexivity|].
        unfold inputDisabled.
        cbn [setRetryTimer setError retryTimer isLoading truthyNumber].
        now rewrite orb_false_r.
      * rewrite (second_counting s _ Hs) by lia.
        cbn [setRetryTimer retryTimer error messages input isLoading].
        split; [|split; [intros; lia | auto]].
        intros _. split; [f_equal; lia|]. split; [exact He|].
        unfold inputDisabled. cbn [setRetryTimer retryTimer isLoading].
        unfold truthyNumber.
        assert (((n - N.of_nat k - 1) =? 0)%N = false) as -> by (apply N.eqb_neq; lia).
        apply orb_true_r.
    + destruct (Hafter Hge) as (Hs & He & Hd).
      rewrite (second_idle s Hs).
      split; [intros; lia|]. split; [|auto].
      intros _. auto.
Qed.

Lemma countdown_runs_down_witness :
  let s := elapse 2 Sample2.waiting in
  s.(retryTimer) = Some 1%N /\ s.(error) = Some "Rate limit exceeded" /\
  inputDisabled s = true.
Proof.
  assert (3%N <> 0%N) as H by discriminate.
  assert (3 <= 9007199254740992)%N as Hmax by lia.
  apply (proj1 (countdown_runs_down Sample2.waiting 3 2 eq_refl H Hmax)).
  reflexivity.
Defined.

(** [sendMessage] sends nothing exactly when its guard holds. *)
Lemma requests_nil_iff {Decoder : Type} (newDecoder : Decoder)
    (decode : Decoder -> list Byte.byte -> Decoder * string)
    (fetch : list ChatMessage -> JsError + Fetched)
    (st : State) (userId assistantId text : string) :
  (sendMessage newDecoder decode fetch st userId assistantId text).(requests) = [] <->
  negb (Js.truthy (Js.trim text)) || st.(isLoading) = true.
Proof.
  unfold sendMessage.
  destruct (negb (Js.truthy (Js.trim text)) || isLoading st); [split; reflexivity|].
  destruct (receive _ _ _ _ _). split; discriminate.
Qed.

(** X18. The submit button is disabled exactly in the states in which
    submitting would send nothing, and in those with a countdown on
    the screen; when it is enabled, submitting sends one request with
    the input as the new user message. *)
Theorem button_follows_guard {Decoder : Type} (newDecoder : Decoder)
    (decode : Decoder -> list Byte.byte -> Decoder * string)
    (fetch : list ChatMessage -> JsError + Fetched)
    (st : State) (userId assistantId : string) :
  let run := handleSubmit newDecoder decode fetch st userId assistantId in
  (submitDisabled st = true <->
   run.(requests) = [] \/ truthyNumber st.(retryTimer) = true) /\
  (submitDisabled st = false ->
   run.(requests) =
     [ toWire <$> st.(messages) ++
                  [ {| id := userId; role := user; content := st.(input) |} ] ]).
Proof.
  intros run. unfold run, handleSubmit. split.
  - rewrite requests_nil_iff. unfold submitDisabled.
    destruct (isLoading st), (negb (Js.truthy (Js.trim (input st)))),
      (truthyNumber (retryTimer st)); simpl; intuition discriminate.
  - unfold submitDisabled. intros Hen.
    apply orb_false_iff in Hen as [Hen _]. apply orb_false_iff in Hen as [Hl Hb].
    unfold sendMessage. rewrite Hl, Hb. cbn [orb].
    destruct (receive _ _ _ _ _). reflexivity.
Qed.

Lemma button_follows_guard_witness :
  submitDisabled Sample2.typed = false /\
  (handleSubmit tt Sample.textOf (fun _ => inl (Error "offline"))
                Sample2.typed "u" "a").(requests) =
    [ toWire <$> Sample2.typed.(messages) ++
                 [ {| id := "u"; role := user; content := "Suggest a task" |} ] ].
Proof.
  split; [reflexivity|].
  apply (proj2 (button_follows_guard tt Sample.textOf (fun _ => inl (Error "offline"))
                  Sample2.typed "u" "a")).
  reflexivity.
Defined.

#[local] Arguments String.append !_ _ / : simpl nomatch.

Lemma occursIn_prefixOf (k a b : string) :
  Js.prefixOf a b -> Js.occursIn k a -> Js.occursIn k b.
Proof.
  intros [rest ->] (x & y & ->). exists x, (y +:+ rest).
  now rewrite !append_assoc.
Qed.

Lemma prefixOf_trans (a b c : string) :
  Js.prefixOf a b -> Js.prefixOf b c -> Js.prefixOf a c.
Proof.
  intros [r1 ->] [r2 ->]. exists (r1 +:+ r2). apply append_assoc.
Qed.

Lemma growing_prefixOf (texts : list string) (i d : nat) (c1 c2 : string) :
  growing texts -> texts !! i = Some c1 -> texts !! (i + d) = Some c2 ->
  Js.prefixOf c1 c2.
Proof.
  intros Hg. revert c2. induction d as [|d IH]; intros c2 H1 H2.
  - rewrite Nat.add_0_r in H2. assert (c1 = c2) as -> by congruence.
    exists "". now rewrite append_nil_r.
  - rewrite Nat.add_succ_r in H2.
    assert (is_Some (texts !! (i + d))) as [c Hc].
    { apply lookup_lt_is_Some. apply lookup_lt_Some in H2. lia. }
    eapply prefixOf_trans; [apply (IH c H1 Hc)|].
    apply (Hg (i + d) c c2 Hc H2).
Qed.

(** X19. While a reply grows by streaming, the notice for an
    out-of-domain reply does not flicker: once the text shown
    contains the refusal sentence of the page, every later text of
    the same reply contains it too. *)
Theorem refusal_notice_is_stable (texts : list string) (i j : nat) (c1 c2 : string) :
  growing texts -> i <= j ->
  texts !! i = Some c1 -> texts !! j = Some c2 ->
  (isNonChallengeResponse c1 = true -> isNonChallengeResponse c2 = true) /\
  (isNonLegalResponse c1 = true -> isNonLegalResponse c2 = true).
Proof.
  intros Hg Hij H1 H2.
  assert (Js.prefixOf c1 c2) as Hp.
  { apply (growing_prefixOf texts i (j - i)); trivial.
    now replace (i + (j - i)) with j by lia. }
  unfold isNonChallengeResponse, isNonLegalResponse.
  rewrite !includes_spec. split; apply occursIn_prefixOf; exact Hp.
Qed.

End ViewFacts.

(** *** Instances of the further properties *)
Module MoreExamples.
Import Gemini Route Spec Page Frame View Conversation Sample Sample2.

Lemma page_transcript_history_witness :
  (POST bytesOf legalBot (answering [])
        (transcript (message "1" "assistant" "hi")
                    [ (message "u1" "user" "first", message "a1" "assistant" "reply") ]
                    (message "u2" "user" "second"))).(calls) =
    [ StartChat (priming legalBot ++ [ entry "user" "first"; entry "model" "reply" ]);
      SendMessageStream "second" ].
Proof.
  apply (page_transcript_history bytesOf legalBot (answering [])
           (message "1" "assistant" "hi")
           [ (message "u1" "user" "first", message "a1" "assistant" "reply") ]
           (message "u2" "user" "second")).
  - apply (bool_decide_unpack _). vm_compute. exact I.
  - reflexivity.
  - repeat constructor.
  - reflexivity.
Defined.

Lemma other_errors_are_500_witness :
  (POST bytesOf legalBot (rejecting keyInvalid) conversation).(response) =
    {| Response.status := 500;
       Response.headers := [ ("Content-Type", "application/json") ];
       Response.body := JsonBody
         {| ErrorData.error := Some "API key not valid";
            ErrorData.message := None;
            ErrorData.retryAfter := None |} |}.
Proof.
  apply (other_errors_are_500 bytesOf legalBot (rejecting keyInvalid) conversation 3
           (message "u2" "user" "second") keyInvalid).
  - exact ErrorExamples.conversation_active.
  - reflexivity.
  - discriminate.
  - intros m [= <-] Hin. apply JsFacts.includes_spec in Hin. discriminate Hin.
Defined.

Lemma retry_hint_is_consistent_witness :
  let r := (POST bytesOf legalBot (rejecting quotaExceeded) conversation).(response) in
  exists n data header,
    r.(Response.status) = 429%N /\
    r.(Response.body) = JsonBody data /\
    data.(ErrorData.retryAfter) = Some n /\
    Page.get r.(Response.headers) "Retry-After" = Some header /\
    Js.parseInt header = n /\
    (n = 60%N \/
     exists m k ds, quotaExceeded.(JsError.message) = Some m /\
                    matchesAt m k ds /\
                    (forall j ds', j < k -> ~ matchesAt m j ds') /\
                    n = Js.parseInt ds).
Proof.
  apply (retry_hint_is_consistent bytesOf legalBot (rejecting quotaExceeded)
           conversation 3 (message "u2" "user" "second") quotaExceeded).
  - exact ErrorExamples.conversation_active.
  - reflexivity.
  - right. eexists. split; [reflexivity|].
    apply JsFacts.includes_spec. reflexivity.
  - apply N.leb_le. reflexivity.
Defined.

Lemma sendMessage_goes_through_witness :
  let run := sendMessage tt textOf (fun _ => inl (Error "offline")) idle "u" "a" "Hi" in
  run.(requests) =
    [ toWire <$> idle.(messages) ++ [ {| id := "u"; role := user; content := "Hi" |} ] ] /\
  (settled idle run).(isLoading) = false /\
  (settled idle run).(input) = "".
Proof.
  apply (proj2 (sendMessage_goes_through tt textOf (fun _ => inl (Error "offline"))
                  idle "u" "a" "Hi")).
  - intros H. inversion H as [|? ? Hc _]. discriminate Hc.
  - reflexivity.
Defined.

Lemma transcript_only_grows_witness :
  let userMessage := {| id := "u"; role := user; content := "Hi" |} in
  let run := sendMessage tt textOf (wired challengeBot (answering ["Hel"; "lo"]))
                         idle "u" "a" "Hi" in
  Forall (fun s => extends idle.(messages) userMessage "a" s.(messages)) run.(renders) /\
  extends idle.(messages) userMessage "a" (settled idle run).(messages).
Proof.
  apply (transcript_only_grows tt textOf (wired challengeBot (answering ["Hel"; "lo"]))
           idle "u" "a" "Hi").
  - intros H. inversion H as [|? ? Hc _]. discriminate Hc.
  - reflexivity.
  - apply (bool_decide_unpack _). vm_compute. exact I.
  - discriminate.
Defined.

(** Without a fresh id the guarantee is lost: an assistant message
    that takes the id of the greeting overwrites the greeting. *)
Example reused_id_overwrites :
  content <$> (settled idle
                 (sendMessage tt textOf (wired challengeBot (answering ["Hel"; "lo"]))
                              idle "u" "1" "Hi")).(messages)
  = [ "Hello"; "Hi"; "Hello" ].
Proof. vm_compute. reflexivity. Qed.

Lemma conversation_context_is_forwarded_witness :
  exists request,
    (sendMessage tt textOf (wired challengeBot (answering ["ok"]))
                 chatted "u2" "a2" "Another one").(requests) = [ request ] /\
    (POST bytesOf challengeBot (answering ["ok"]) request).(calls) =
      [ StartChat (priming challengeBot ++ flat_map answeredEntries [ (asked, told) ]);
        SendMessageStream "Another one" ].
Proof.
  apply (conversation_context_is_forwarded bytesOf tt textOf challengeBot
           (answering ["ok"]) (wired challengeBot (answering ["ok"]))
           chatted hello [ (asked, told) ] "u2" "a2" "Another one").
  - intros H. inversion H as [|? ? Hc _]. discriminate Hc.
  - reflexivity.
  - reflexivity.
  - reflexivity.
  - repeat constructor.
  - apply (bool_decide_unpack _). vm_compute. exact I.
Defined.

Lemma rate_limit_starts_countdown_witness :
  let s := settled idle
             (sendMessage tt textOf (wired legalBot (rejecting quotaExceeded))
                          idle "u" "a" "Hi") in
  s.(retryTimer) = Some 17%N /\
  s.(Page.error) =
    Some ("Google AI API rate limit reached. Please try again in " +:+ Js.toString 17
          +:+ " seconds. The free tier of Gemini API has strict rate limits.") /\
  s.(isLoading) = false /\
  s.(messages) = idle.(messages) ++ [ {| id := "u"; role := user; content := "Hi" |} ] /\
  inputDisabled s = true /\ submitDisabled s = true.
Proof.
  apply (rate_limit_starts_countdown bytesOf tt textOf legalBot (rejecting quotaExceeded)
           (wired legalBot (rejecting quotaExceeded)) idle "u" "a" "Hi"
           quotaExceeded 17
           (byteWise (POST bytesOf legalBot (rejecting quotaExceeded)
                        (toWire <$> idle.(messages) ++
                           [ {| id := "u"; role := user; content := "Hi" |} ])).(response))).
  - intros H. inversion H as [|? ? Hc _]. discriminate Hc.
  - reflexivity.
  - reflexivity.
  - right. eexists. split; [reflexivity|].
    apply JsFacts.includes_spec. reflexivity.
  - reflexivity.
  - discriminate.
  - lia.
  - reflexivity.
  - apply StreamingExamples.byteWise_delivers.
Defined.

Lemma zero_delay_starts_no_countdown_witness :
  let s := settled idle
             (sendMessage tt textOf (wired legalBot (rejecting zeroDelay))
                          idle "u" "a" "Hi") in
  s.(retryTimer) = None /\
  s.(Page.error) = Some "Rate limit exceeded" /\
  s.(isLoading) = false /\
  s.(messages) = idle.(messages) ++ [ {| id := "u"; role := user; content := "Hi" |} ] /\
  inputDisabled s = false.
Proof.
  apply (zero_delay_starts_no_countdown bytesOf tt textOf legalBot (rejecting zeroDelay)
           (wired legalBot (rejecting zeroDelay)) idle "u" "a" "Hi" zeroDelay
           (byteWise (POST bytesOf legalBot (rejecting zeroDelay)
                        (toWire <$> idle.(messages) ++
                           [ {| id := "u"; role := user; content := "Hi" |} ])).(response))).
  - intros H. inversion H as [|? ? Hc _]. discriminate Hc.
  - reflexivity.
  - reflexivity.
  - reflexivity.
  - right. eexists. split; [reflexivity|].
    apply JsFacts.includes_spec. reflexivity.
  - reflexivity.
  - reflexivity.
  - apply StreamingExamples.byteWise_delivers.
Defined.

Lemma upstream_error_is_shown_witness :
  let s := settled idle
             (sendMessage tt textOf (wired legalBot (rejecting keyInvalid))
                          idle "u" "a" "Hi") in
  s.(Page.error) = Some "API key not valid" /\
  s.(retryTimer) = None /\
  s.(isLoading) = false /\
  s.(messages) = idle.(messages) ++ [ {| id := "u"; role := user; content := "Hi" |} ].
Proof.
  apply (upstream_error_is_shown bytesOf tt textOf legalBot (rejecting keyInvalid)
           (wired legalBot (rejecting keyInvalid)) idle "u" "a" "Hi" keyInvalid
           (byteWise (POST bytesOf legalBot (rejecting keyInvalid)
                        (toWire <$> idle.(messages) ++
                           [ {| id := "u"; role := user; content := "Hi" |} ])).(response))).
  - intros H. inversion H as [|? ? Hc _]. discriminate Hc.
  - reflexivity.
  - reflexivity.
  - reflexivity.
  - discriminate.
  - intros m [= <-] Hin. apply JsFacts.includes_spec in Hin. discriminate Hin.
  - reflexivity.
  - apply StreamingExamples.byteWise_delivers.
Defined.

Lemma exchange_is_recorded_witness :
  let userMessage := {| id := "u"; role := user; content := "Hi" |} in
  let reply := {| id := "a"; role := assistant; content := "Hello" |} in
  let s := settled idle
             (sendMessage tt textOf (wired challengeBot (answering ["Hel"; ""; "lo"]))
                          idle "u" "a" "Hi") in
  s.(messages) = idle.(messages) ++ [ userMessage; reply ] /\
  s.(Page.error) = None /\
  s.(isLoading) = false /\
  (forall greeting answered,
     idle.(messages) = shownTranscript greeting answered ->
     Forall isAnswered answered ->
     s.(messages) = shownTranscript greeting (answered ++ [ (userMessage, reply) ]) /\
     Forall isAnswered (answered ++ [ (userMessage, reply) ])).
Proof.
  apply (exchange_is_recorded bytesOf tt textOf challengeBot (answering ["Hel"; ""; "lo"])
           (wired challengeBot (answering ["Hel"; ""; "lo"]))
           StreamingExamples.textOf_nil StreamingExamples.textOf_app
           idle "u" "a" "Hi" ["Hel"; ""; "lo"]
           (byteWise (POST bytesOf challengeBot (answering ["Hel"; ""; "lo"])
                        (toWire <$> idle.(messages) ++
                           [ {| id := "u"; role := user; content := "Hi" |} ])).(response))).
  - intros H. inversion H as [|? ? Hc _]. discriminate Hc.
  - reflexivity.
  - apply (bool_decide_unpack _). vm_compute. exact I.
  - discriminate.
  - reflexivity.
  - reflexivity.
  - apply StreamingExamples.byteWise_delivers.
Defined.

Lemma partial_reply_is_kept_witness :
  let s := settled idle
             (sendMessage tt textOf (wired challengeBot (failing ["Hel"] reset))
                          idle "u" "a" "Hi") in
  (exists stream met,
     (byteWise (POST bytesOf challengeBot (failing ["Hel"] reset)
                  (toWire <$> idle.(messages) ++
                     [ {| id := "u"; role := user; content := "Hi" |} ])).(response))
       .(Fetched.body) = Some stream /\
     stream.(ending) = Errored met /\
     concat stream.(queue) `prefix_of` bytesOf "Hel" /\
     last s.(messages) =
       Some {| id := "a"; role := assistant;
               content := snd (textOf tt (concat stream.(queue))) |} /\
     s.(Page.error) =
       Some (match met.(JsError.message) with
             | Some (String c m) => String c m
             | _ => "Failed to communicate with the AI"
             end)) /\
  s.(isLoading) = false.
Proof.
  apply (partial_reply_is_kept bytesOf tt textOf challengeBot (failing ["Hel"] reset)
           (wired challengeBot (failing ["Hel"] reset))
           StreamingExamples.textOf_nil StreamingExamples.textOf_app
           idle "u" "a" "Hi" ["Hel"] reset).
  - intros H. inversion H as [|? ? Hc _]. discriminate Hc.
  - reflexivity.
  - reflexivity.
  - reflexivity.
  - reflexivity.
  - apply StreamingExamples.byteWise_delivers.
Defined.

(** What the page shows after that failure. *)
Example partial_reply_shown :
  let s := settled idle
             (sendMessage tt textOf (wired challengeBot (failing ["Hel"] reset))
                          idle "u" "a" "Hi") in
  shown s = Some "Hel" /\ s.(Page.error) = Some "network error".
Proof. split; vm_compute; reflexivity. Qed.

Lemma refusing_grows : growing refusing.
Proof.
  intros [|[|[|[|i]]]] c1 c2 H1 H2; simpl in H1, H2;
    try discriminate; injection H1 as <-; injection H2 as <-;
    (split; [|vm_compute; lia]).
  - exists "I'm a challenge bot ". reflexivity.
  - exists "focused on providing personalized daily tasks and challenges. I cannot answer questions outside this domain.".
    reflexivity.
  - exists " Try a task.". reflexivity.
Defined.

Lemma refusal_notice_is_stable_witness :
  isNonChallengeResponse NON_CHALLENGE_RESPONSE = true /\
  isNonChallengeResponse (NON_CHALLENGE_RESPONSE +:+ " Try a task.") = true.
Proof.
  split; [reflexivity|].
  apply (proj1 (ViewFacts.refusal_notice_is_stable refusing 2 3 NON_CHALLENGE_RESPONSE
                  (NON_CHALLENGE_RESPONSE +:+ " Try a task.")
                  refusing_grows (le_S _ _ (le_n _)) eq_refl eq_refl)).
  reflexivity.
Defined.

(** The refusal sentence that the challenge page looks for is the
    one the system prompt of the challenge route prescribes; the
    sentence the legal page looks for is not in the system prompt of
    the legal route, which puts the name of the bot into it. *)
Example refusal_sentences :
  Js.includes challengeBot.(systemPromptText) NON_CHALLENGE_RESPONSE = true /\
  Js.includes legalBot.(systemPromptText) NON_LEGAL_RESPONSE = false.
Proof. split; vm_compute; reflexivity. Qed.

End MoreExamples.
